(** * bluesky-org-search: the matching and throttling engine

    A shallow embedding of [src/bluesky-org-search.py]: the call-rate limiter
    ([rate_limit]), the text matcher ([levenshtein_distance], [fuzzy_match]
    and the four-way test of [search_organization]), the paginated search
    loop of [search_organization], the batch over the organizations
    ([search_from_csv]) and the login ([get_client]), followed by the
    properties proved of them.

    Part I holds the definitions; Part II and Part III the lemmas and
    theorems. *)

From Stdlib Require Import Ascii String.
From Stdlib Require Import List ZArith Arith Bool Lia.
From Equations Require Import Equations.
Import ListNotations.

(* ===================================================================== *)
(** * Part I: the program *)
(* ===================================================================== *)

(** ** Python values *)

(** A [str] is a sequence of code points. The model keeps the code points
    below 256, one [ascii] each; on that range [lower], [str.split] and the
    [\w] class of [re] are the tables of CPython 3. *)
Definition str := list ascii.

Definition py (s : string) : str := list_ascii_of_string s.

(** The [RateLimit-Reset] header as line 127 reads it:
    [int(e.response.headers.get('RateLimit-Reset', 0))]. An error without a
    response fails at the same line and takes the path of the malformed
    header. *)
Inductive reset_header :=
| header_absent                 (* [get] falls back on 0 *)
| header_int (reset_time : Z)   (* a value [int] parses *)
| header_malformed.             (* a value [int] rejects: ValueError *)

(** The exceptions the modelled code can meet; all are subclasses of
    [Exception]. *)
Inductive exn :=
| ZeroDivisionError
| IndexError
| ValueError
| AtProtocolError (message : str) (reset : reset_header)
| OtherException (message : str).

Inductive result (A : Type) :=
| Ok (a : A)
| Raise (e : exn).
Arguments Ok {A} a.
Arguments Raise {A} e.

Definition bind {A B} (r : result A) (k : A -> result B) : result B :=
  match r with
  | Ok a => k a
  | Raise e => Raise e
  end.

Notation "x <- r ;; k" := (bind r (fun x => k))
  (at level 61, r at next level, right associativity).

(** [l[i]] for [0 <= i]: IndexError out of range. *)
Definition getitem {A} (l : list A) (i : nat) : result A :=
  match nth_error l i with
  | Some a => Ok a
  | None => Raise IndexError
  end.

(** [l[-1]]. *)
Definition last_item {A} (l : list A) : result A :=
  match l with
  | [] => Raise IndexError
  | _ => getitem l (length l - 1)
  end.

(** ** EditDistance: [levenshtein_distance], lines 153-171 *)

(** [(c1 != c2)] used as an integer. *)
Definition differ (c1 c2 : ascii) : nat :=
  if Ascii.eqb c1 c2 then 0 else 1.

(** [min(a, b, c)]. *)
Definition min3 (a b c : nat) : nat := Nat.min a (Nat.min b c).

(** The inner loop, lines 164-168: [s2] is what [enumerate(s2)] still has to
    yield and [j] the index of its head. *)
Fixpoint fill_row (c1 : ascii) (previous_row : list nat) (s2 : str) (j : nat)
    (current_row : list nat) : result (list nat) :=
  match s2 with
  | [] => Ok current_row
  | c2 :: s2' =>
      above <- getitem previous_row (j + 1) ;;
      left <- getitem current_row j ;;
      diag <- getitem previous_row j ;;
      let insertions := above + 1 in
      let deletions := left + 1 in
      let substitutions := diag + differ c1 c2 in
      fill_row c1 previous_row s2' (S j)
        (current_row ++ [min3 insertions deletions substitutions])
  end.

(** The outer loop, lines 162-169: [s1] is what [enumerate(s1)] still has to
    yield and [i] the index of its head. *)
Fixpoint rows (s1 s2 : str) (i : nat) (previous_row : list nat)
    : result (list nat) :=
  match s1 with
  | [] => Ok previous_row
  | c1 :: s1' =>
      current_row <- fill_row c1 previous_row s2 0 [i + 1] ;;
      rows s1' s2 (S i) current_row
  end.

(** Lines 158-171: the body below the swap. *)
Definition distance_rows (s1 s2 : str) : result nat :=
  if length s2 =? 0 then Ok (length s1)
  else
    previous_row <- rows s1 s2 0 (seq 0 (length s2 + 1)) ;;
    last_item previous_row.

(** Lines 155-156: the function calls itself with the arguments swapped when
    the first is the shorter one; the swapped call does not swap again. *)
Equations? levenshtein_distance (s1 s2 : str) : result nat
    by wf (if length s1 <? length s2 then 1 else 0) lt :=
  levenshtein_distance s1 s2 with lt_dec (length s1) (length s2) => {
    | left _ := levenshtein_distance s2 s1;
    | right _ := distance_rows s1 s2 }.
Proof.
  destruct (Nat.ltb_spec (length s2) (length s1));
    destruct (Nat.ltb_spec (length s1) (length s2)); lia.
Qed.

(** ** Text: the [str] methods and the [re] call the matcher uses *)

Definition between (lo hi n : nat) : bool := (lo <=? n) && (n <=? hi).

(** The separators of [str.split()]: the code points [str.isspace] accepts. *)
Definition is_space (c : ascii) : bool :=
  let n := nat_of_ascii c in
  between 9 13 n || between 28 32 n || (n =? 133) || (n =? 160).

(** The class [\w] of [re] on a [str] pattern: alphanumerics and [_]. *)
Definition is_word (c : ascii) : bool :=
  let n := nat_of_ascii c in
  between 48 57 n || between 65 90 n || (n =? 95) || between 97 122 n
  || (n =? 170) || between 178 179 n || (n =? 181) || between 185 186 n
  || between 188 190 n || between 192 214 n || between 216 246 n
  || between 248 255 n.

Definition lower_char (c : ascii) : ascii :=
  let n := nat_of_ascii c in
  if between 65 90 n || between 192 214 n || between 216 222 n
  then ascii_of_nat (n + 32)
  else c.

(** [s.lower()]. *)
Definition lower (s : str) : str := map lower_char s.

(** The maximal runs of characters of [s] that satisfy [keep], left to
    right; [run] is the run being read. *)
Fixpoint runs (keep : ascii -> bool) (s : str) (run : str) : list str :=
  match s with
  | [] => match run with [] => [] | _ => [run] end
  | c :: s' =>
      if keep c then runs keep s' (run ++ [c])
      else match run with
           | [] => runs keep s' []
           | _ => run :: runs keep s' []
           end
  end.

(** [s.split()]: the maximal runs of characters that are not whitespace. *)
Definition split (s : str) : list str :=
  runs (fun c => negb (is_space c)) s [].

(** [re.findall(r'\b\w+\b', s)]: a match starts and ends at a word
    boundary, so it is a maximal run of word characters. *)
Definition findall_words (s : str) : list str := runs is_word s [].

(** [sep.join(l)]. *)
Fixpoint join (sep : str) (l : list str) : str :=
  match l with
  | [] => []
  | [x] => x
  | x :: l' => x ++ sep ++ join sep l'
  end.

Fixpoint startswith (s prefix : str) {struct prefix} : bool :=
  match prefix, s with
  | [], _ => true
  | _ :: _, [] => false
  | a :: prefix', b :: s' => Ascii.eqb a b && startswith s' prefix'
  end.

(** [sub in s] on two [str]: [sub] occurs in [s] as a substring. *)
Fixpoint contains (s sub : str) : bool :=
  startswith s sub ||
  match s with
  | [] => false
  | _ :: s' => contains s' sub
  end.

Definition str_eqb (a b : str) : bool :=
  if list_eq_dec ascii_dec a b then true else false.

(** ** FuzzyMatcher: [fuzzy_match], lines 141-151 *)

(** Line 148: [any(levenshtein_distance(org_word, w) <= 2 for w in
    search_words)]. *)
Fixpoint any_close (org_word : str) (search_words : list str) : result bool :=
  match search_words with
  | [] => Ok false
  | search_word :: rest =>
      d <- levenshtein_distance org_word search_word ;;
      if d <=? 2 then Ok true else any_close org_word rest
  end.

(** Lines 146-149. *)
Fixpoint count_matched (org_words search_words : list str)
    (matched_words : nat) : result nat :=
  match org_words with
  | [] => Ok matched_words
  | org_word :: rest =>
      hit <- any_close org_word search_words ;;
      count_matched rest search_words
        (if hit then matched_words + 1 else matched_words)
  end.

(** Line 151 divides two [int]s and compares the quotient with [0.7]. The
    division raises on a zero divisor. The double nearest to [m / n] is at
    least the double [0.7] exactly when [7 * n <= 10 * m], as long as [n]
    is below 10^15: the model compares the integers. *)
Definition ratio_at_least_07 (matched_words total : nat) : result bool :=
  if total =? 0 then Raise ZeroDivisionError
  else Ok (7 * total <=? 10 * matched_words).

Definition fuzzy_match (org_name search_text : str) : result bool :=
  let org_words := split (lower org_name) in
  let search_words := split (lower search_text) in
  matched_words <- count_matched org_words search_words 0 ;;
  ratio_at_least_07 matched_words (length org_words).

(** ** The match decision of [search_organization], lines 76-77 and 97-100 *)

(** Line 76. *)
Definition org_words_of (org_name : str) : list str :=
  findall_words (lower org_name).

(** Line 77. *)
Definition org_without_of_of (org_name : str) : str :=
  join (py " ")
    (filter (fun word => negb (str_eqb word (py "of"))) (org_words_of org_name)).

(** Line 97: [org_name.lower() in search_text]. *)
Definition exact_substring (org_name search_text : str) : bool :=
  contains search_text (lower org_name).

(** Line 98: [org_without_of in search_text]. *)
Definition normalized_substring (org_name search_text : str) : bool :=
  contains search_text (org_without_of_of org_name).

(** Line 99: [all(word in search_text for word in org_words)]. *)
Definition all_tokens_present (org_name search_text : str) : bool :=
  forallb (fun word => contains search_text word) (org_words_of org_name).

(** Lines 97-100: [or] evaluates its operands left to right and stops at
    the first true one. *)
Definition match_decision (org_name search_text : str) : result bool :=
  if exact_substring org_name search_text then Ok true
  else if normalized_substring org_name search_text then Ok true
  else if all_tokens_present org_name search_text then Ok true
  else fuzzy_match org_name search_text.

(** ** RateLimiter: [rate_limit], lines 13-35 *)

(** [time.time()] returns a float. The limiter only subtracts, adds and
    compares such readings, so the model takes the type of readings and
    these operations as they come: what is proved of the timestamp log holds
    for every arithmetic, rounding or exact. *)
Section RateLimit.

Variable time : Type.
Variable of_int : Z -> time.
Variable add sub : time -> time -> time.
Variable ltb : time -> time -> bool.

(** The arguments of [rate_limit]. *)
Variables calls period : Z.

(** Line 22: the timestamps [current_time] is less than [period] away from. *)
Definition recent (current_time call_time : time) : bool :=
  ltb (sub current_time call_time) (of_int period).

(** One invocation of [wrapper] up to the call of [func]: the reading of the
    clock and the log [calls_made] before, the log after and either the
    time slept before [func] is called ([None]: no sleep) or the exception
    that keeps [func] from being called. *)
Definition wrapper (current_time : time) (calls_made : list time)
    : list time * result (option time) :=
  let calls_made := filter (recent current_time) calls_made in
  if (calls <=? Z.of_nat (length calls_made))%Z then
    match calls_made with
    | [] => (calls_made, Raise IndexError)          (* [calls_made[0]] *)
    | oldest :: rest =>
        let sleep_time := sub (add oldest (of_int period)) current_time in
        let slept :=
          if ltb (of_int 0) sleep_time then Some sleep_time else None in
        (rest ++ [current_time], Ok slept)
    end
  else (calls_made ++ [current_time], Ok None).

(** The log after a sequence of invocations, one clock reading each. An
    invocation that raises leaves the log to the next one. *)
Fixpoint invocations (readings : list time) (calls_made : list time)
    : list time :=
  match readings with
  | [] => calls_made
  | current_time :: later =>
      invocations later (fst (wrapper current_time calls_made))
  end.

(** The timestamps of the window of length [period] that ends at [t]. *)
Definition in_window (t call_time : time) : bool :=
  negb (ltb t call_time) && recent t call_time.

End RateLimit.

(** ** PaginatedSearch: [search_organization], lines 72-139 *)

(** What the remote returns of an account. [followers_count] and its two
    siblings are read with [getattr(actor, ..., 0)]: [None] stands for a
    missing attribute. *)
Record actor := {
  actor_handle : str;
  actor_display_name : option str;
  actor_description : option str;
  actor_followers_count : option Z;
  actor_following_count : option Z;
  actor_posts_count : option Z
}.

(** The dictionary of lines 101-111, one field per key. *)
Record account_info := {
  search_term : str;
  organization_type : str;
  handle : str;
  display_name : option str;
  description : option str;
  follower_count : Z;
  following_count : Z;
  posts_count : Z;
  search_date : str
}.

(** The argument of [search_actors], lines 88-90. *)
Record params := {
  term : str;
  limit : Z;
  cursor_param : option str
}.

(** What one call of [search_actors] does: it returns a page or raises. *)
Inductive response :=
| Page (actors : list actor) (cursor : option str)
| Fails (e : exn).

(** One reading of the system clock: [int(time.time())] and
    [datetime.now().strftime('%Y-%m-%d')]. *)
Record reading := {
  unix_time : Z;
  today : str
}.

Inductive event :=
| Requested (p : params)
| Slept (seconds : Z).

(** The world around one search: the clock ([clock n] is what its [n]-th
    consultation reads, [ticks] counts the consultations so far) and the
    requests and sleeps so far. Printing is not modelled. *)
Record world := {
  clock : nat -> reading;
  ticks : nat;
  trace : list event
}.

Definition M (A : Type) : Type := world -> result A * world.

Definition ret {A} (a : A) : M A := fun w => (Ok a, w).

Definition raise {A} (e : exn) : M A := fun w => (Raise e, w).

Definition lift {A} (r : result A) : M A := fun w => (r, w).

Definition mbind {A B} (m : M A) (k : A -> M B) : M B :=
  fun w =>
    match m w with
    | (Ok a, w') => k a w'
    | (Raise e, w') => (Raise e, w')
    end.

Notation "x <~ m ;; k" := (mbind m (fun x => k))
  (at level 61, m at next level, right associativity).

Definition now : M reading :=
  fun w =>
    (Ok (clock w (ticks w)),
     {| clock := clock w; ticks := S (ticks w); trace := trace w |}).

Definition emit (e : event) : M unit :=
  fun w =>
    (Ok tt, {| clock := clock w; ticks := ticks w; trace := trace w ++ [e] |}).

(** A value in a condition: [None] and the empty string are false. *)
Definition truthy (c : option str) : bool :=
  match c with
  | Some (_ :: _) => true
  | _ => false
  end.

(** Line 95: an f-string writes [None] as the word None; [or ''] turns
    [None] into the empty string. *)
Definition search_text_of (a : actor) : str :=
  lower (match actor_display_name a with Some s => s | None => py "None" end
         ++ py " "
         ++ match actor_description a with Some s => s | None => [] end).

Definition getattr_or_0 (field : option Z) : Z :=
  match field with
  | Some n => n
  | None => 0%Z
  end.

(** Lines 101-111. *)
Definition account_of (org_name org_type : str) (a : actor) (date : str)
    : account_info :=
  {| search_term := org_name;
     organization_type := org_type;
     handle := actor_handle a;
     display_name := actor_display_name a;
     description := actor_description a;
     follower_count := getattr_or_0 (actor_followers_count a);
     following_count := getattr_or_0 (actor_following_count a);
     posts_count := getattr_or_0 (actor_posts_count a);
     search_date := date |}.

(** The [for] loop of lines 94-112 over what is left of [results.actors]. *)
Fixpoint evaluate_page (org_name org_type : str) (actors : list actor)
    (matched_accounts : list account_info) : M (list account_info) :=
  match actors with
  | [] => ret matched_accounts
  | a :: rest =>
      hit <~ lift (match_decision org_name (search_text_of a)) ;;
      if hit : bool then
        r <~ now ;;
        evaluate_page org_name org_type rest
          (matched_accounts ++ [account_of org_name org_type a (today r)])
      else evaluate_page org_name org_type rest matched_accounts
  end.

(** How one pass through the [try] block ends when nothing is raised. *)
Inductive step :=
| Break (matched_accounts : list account_info)
| Continue (cursor : option str) (page_count : nat)
    (matched_accounts : list account_info).

(** Lines 88-123, with the answer [r] of the remote to this request. *)
Definition try_page (max_pages : nat) (org_name org_type search_term : str)
    (r : response) (cursor : option str) (page_count : nat)
    (matched_accounts : list account_info) : M step :=
  let p := {| term := search_term; limit := 100;
              cursor_param := if truthy cursor then cursor else None |} in
  _ <~ emit (Requested p) ;;
  match r with
  | Fails e => raise e
  | Page actors next =>
      matched_accounts <~ evaluate_page org_name org_type actors matched_accounts ;;
      if negb (truthy next) then ret (Break matched_accounts)
      else
        let page_count := page_count + 1 in
        if max_pages <=? page_count then ret (Break matched_accounts)
        else
          _ <~ emit (Slept 1) ;;
          ret (Continue next page_count matched_accounts)
  end.

(** Line 127. *)
Definition reset_time_of (reset : reset_header) : result Z :=
  match reset with
  | header_absent => Ok 0%Z
  | header_int reset_time => Ok reset_time
  | header_malformed => Raise ValueError
  end.

(** Line 126: ['RateLimitExceeded' in str(e)]. *)
Definition rate_limited (message : str) : bool :=
  contains message (py "RateLimitExceeded").

(** The [except AtProtocolError] clause, lines 125-133: it returns for
    [continue] and raises otherwise. An exception of another class is not
    caught here. *)
Definition on_error (e : exn) : M unit :=
  match e with
  | AtProtocolError message reset =>
      if rate_limited message then
        reset_time <~ lift (reset_time_of reset) ;;
        r <~ now ;;
        let wait_time := Z.max 0 (reset_time - unix_time r) in
        emit (Slept (wait_time + 1))
      else raise e
  | _ => raise e
  end.

(** The [while True] loop of lines 86-133. [script] lists what the remote
    answers to the requests to come, one answer a request; the loop is
    undetermined ([None]) when it asks for more than the script holds. The
    list of matches is only appended to after the request of its pass has
    returned, so a pass that is retried starts from the list as it was. *)
Fixpoint search_loop (max_pages : nat) (org_name org_type search_term : str)
    (script : list response) (cursor : option str) (page_count : nat)
    (matched_accounts : list account_info) (w : world)
    : option (result (list account_info) * list response * world) :=
  match script with
  | [] => None
  | r :: script' =>
      match try_page max_pages org_name org_type search_term r cursor
              page_count matched_accounts w with
      | (Ok (Break matched), w') => Some (Ok matched, script', w')
      | (Ok (Continue cursor' page_count' matched), w') =>
          search_loop max_pages org_name org_type search_term script'
            cursor' page_count' matched w'
      | (Raise e, w') =>
          match on_error e w' with
          | (Ok _, w'') =>
              search_loop max_pages org_name org_type search_term script'
                cursor page_count matched_accounts w''
          | (Raise e', w'') => Some (Raise e', script', w'')
          end
      end
  end.

(** Line 84. *)
Definition search_term_of (org_name : str) : str :=
  match org_words_of org_name with
  | word :: _ => word
  | [] => org_name
  end.

(** The body of [search_organization] with the page bound of line 82 as an
    argument: the outer [except Exception] of lines 137-139 turns whatever
    the loop raises into the empty list. *)
Definition search_organization_bounded (max_pages : nat)
    (org_name org_type : str) (script : list response) (w : world)
    : option (result (list account_info) * list response * world) :=
  match search_loop max_pages org_name org_type (search_term_of org_name)
          script None 0 [] w with
  | None => None
  | Some (Ok matched_accounts, rest, w') => Some (Ok matched_accounts, rest, w')
  | Some (Raise _, rest, w') => Some (Ok [], rest, w')
  end.

(** [search_organization] as the source configures it: [max_pages = 1].
    The decorator of line 72 runs [wrapper 100 86400] before this body and
    returns what the body returns. *)
Definition search_organization : str -> str -> list response -> world ->
    option (result (list account_info) * list response * world) :=
  search_organization_bounded 1.

(** ** Reference definitions the proofs compare the code with *)

(** The textbook recurrence of the edit distance, on the first characters
    of both strings. *)
Fixpoint recurrence (s t : str) : nat :=
  match s with
  | [] => length t
  | a :: s' =>
      (fix against (t : str) : nat :=
         match t with
         | [] => length s
         | b :: t' =>
             min3 (recurrence s' t + 1) (against t' + 1)
               (recurrence s' t' + differ a b)
         end) t
  end.

(** The rows of [levenshtein_distance] grow by the last characters: cell
    [j] of the row of prefix [p] is the distance from [p] to the first [j]
    characters of [s2]. *)
Definition prefix_distance (p q : str) : nat := recurrence (rev p) (rev q).

Definition row_of (p s2 : str) : list nat :=
  map (fun j => prefix_distance p (firstn j s2)) (seq 0 (S (length s2))).

(** What [s in text] means: [text] is [s] between two strings. *)
Definition substring (s text : str) : Prop :=
  exists before after, text = before ++ s ++ after.

(** Whether the decision of lines 97-100 accepts the actor. *)
Definition accepted (org_name : str) (a : actor) : bool :=
  match match_decision org_name (search_text_of a) with
  | Ok hit => hit
  | Raise _ => false
  end.

(** The accounts a page adds to the matches: one for each accepted actor, in
    the order of the page, each dated by the reading of the clock taken when
    it is recorded; [tick] is the number of readings taken before. *)
Fixpoint page_matches (org_name org_type : str) (clock : nat -> reading)
    (actors : list actor) (tick : nat) : list account_info :=
  match actors with
  | [] => []
  | a :: rest =>
      if accepted org_name a then
        account_of org_name org_type a (today (clock tick))
        :: page_matches org_name org_type clock rest (S tick)
      else page_matches org_name org_type clock rest tick
  end.

(** The request of a pass that starts with [cursor]. *)
Definition request (org_name : str) (cursor : option str) : params :=
  {| term := search_term_of org_name; limit := 100;
     cursor_param := if truthy cursor then cursor else None |}.

(** The errors line 126 takes for a rate limit of the remote. *)
Definition is_rate_limit_error (e : exn) : bool :=
  match e with
  | AtProtocolError message _ => rate_limited message
  | _ => false
  end.

(** The errors the loop answers with a sleep and a retry. *)
Definition retried (e : exn) : bool :=
  match e with
  | AtProtocolError message header_malformed => false
  | AtProtocolError message _ => rate_limited message
  | _ => false
  end.

(** The answers after each of which the loop sends one more request: a page
    with a next cursor below the page bound, or a retried error. *)
Fixpoint keeps_going (max_pages : nat) (answers : list response)
    (page_count : nat) : bool :=
  match answers with
  | [] => true
  | Page _ next :: later =>
      truthy next && (page_count + 1 <? max_pages)
      && keeps_going max_pages later (page_count + 1)
  | Fails e :: later => retried e && keeps_going max_pages later page_count
  end.

(** The limiter with whole seconds for clock readings. *)
Definition wrapper_seconds (calls period : Z) :=
  wrapper Z (fun n => n) Z.add Z.sub Z.ltb calls period.

(** Line 148 for one pair of words: within two edits of each other. *)
Definition close_to (org_word search_word : str) : bool :=
  match levenshtein_distance org_word search_word with
  | Ok d => d <=? 2
  | Raise _ => false
  end.

(** The tokens of [org_words] that some token of [search_words] is close
    to, with their repetitions. *)
Definition matched_tokens (org_words search_words : list str) : list str :=
  filter (fun org_word => existsb (close_to org_word) search_words) org_words.

(** The instants at which [func] starts when [n] calls are made one right
    after the other from the instant [current_time] on, in whole seconds:
    time passes only while the wrapper sleeps. *)
Fixpoint back_to_back (calls period : Z) (n : nat) (current_time : Z)
    (calls_made : list Z) : list Z :=
  match n with
  | 0 => []
  | S n' =>
      match wrapper_seconds calls period current_time calls_made with
      | (calls_made', Ok slept) =>
          let start :=
            match slept with
            | Some sleep_time => (current_time + sleep_time)%Z
            | None => current_time
            end in
          start :: back_to_back calls period n' start calls_made'
      | (calls_made', Raise _) =>
          back_to_back calls period n' current_time calls_made'
      end
  end.

(** A page of the remote that has a next cursor. *)
Definition page_of (p : list actor * str) : response :=
  Page (fst p) (Some (snd p)).

(** The matches of several pages, one after the other: the clock is read
    on through the pages. *)
Fixpoint pages_matches (org_name org_type : str) (clock : nat -> reading)
    (pages : list (list actor)) (tick : nat) : list account_info :=
  match pages with
  | [] => []
  | actors :: later =>
      let matches := page_matches org_name org_type clock actors tick in
      matches
      ++ pages_matches org_name org_type clock later (tick + length matches)
  end.

(** The requests of a search that meets no error: one with the cursor it
    starts from, then a sleep of a second and a request for each cursor the
    remote hands out. *)
Fixpoint paging_trace (search_term : str) (cursor : option str)
    (nexts : list str) : list event :=
  Requested {| term := search_term; limit := 100;
               cursor_param := if truthy cursor then cursor else None |}
  :: match nexts with
     | [] => []
     | next :: later => Slept 1 :: paging_trace search_term (Some next) later
     end.

(** The events of one search from its first request on: every request asks
    for [search_term] with the limit 100, and between a request and the next
    one there is one sleep, of a second at least (line 123 or line 130). *)
Fixpoint paced (search_term : str) (events : list event) : Prop :=
  match events with
  | Requested p :: later =>
      term p = search_term /\ limit p = 100%Z /\
      match later with
      | [] => True
      | Slept seconds :: later' =>
          (1 <= seconds)%Z /\ paced search_term later'
      | Requested _ :: _ => False
      end
  | _ => False
  end.

(** ** The batch: [search_from_csv], lines 173-284 *)

(** A row of [csv.DictReader]: the values of a line of the input under the
    names of the header. The rows are taken complete (no value is [None]). *)
Definition row := list (str * str).

(** [d[key]]: [None] stands for KeyError. *)
Fixpoint lookup (key : str) (d : row) : option str :=
  match d with
  | [] => None
  | (k, v) :: d' => if str_eqb k key then Some v else lookup key d'
  end.

(** What the loop over the organizations can raise: [org[key]] on a header
    without the key, [write] on the closed file of the environment, [open]
    on a path the file system refuses. *)
Inductive batch_error :=
| KeyError (key : str)
| ClosedFile
| OSError (message : str).

Inductive outcome (A : Type) :=
| Done (a : A)
| Failed (e : batch_error).
Arguments Done {A} a.
Arguments Failed {A} e.

(** [str(e)]. *)
Definition str_of_error (e : batch_error) : str :=
  match e with
  | KeyError key => py "'" ++ key ++ py "'"
  | ClosedFile => py "I/O operation on closed file."
  | OSError message => message
  end.

(** The machine the batch runs on: the value of [GITHUB_ENV] and what [open]
    does with a path ([None]: it opens the file; [Some m]: it raises an
    OSError whose [str] is [m]). *)
Record host := {
  github_env : option str;
  open_error : str -> option str
}.

(** The files the batch writes. A CSV file is its rows below the header,
    each row the dictionary given to [writerow]; the newest file of a path
    comes first. Of the file of [GITHUB_ENV] the model keeps the lines of
    line 217, each as the name it is written for. *)
Record disk := {
  files : list (str * list account_info);
  env_headers : list str
}.

(** [open(path, 'w')] and the rows written until the file is closed. *)
Definition write (path : str) (rows : list account_info) (d : disk) : disk :=
  {| files := (path, rows) :: files d; env_headers := env_headers d |}.

(** The rows of the file at [path], if there is one. *)
Fixpoint read (path : str) (fs : list (str * list account_info))
    : option (list account_info) :=
  match fs with
  | [] => None
  | (p, rows) :: fs' => if str_eqb p path then Some rows else read path fs'
  end.

(** [org_name.replace(' ', '_')]. *)
Definition replace_spaces (s : str) : str :=
  map (fun c => if Ascii.eqb c " " then "_"%char else c) s.

Fixpoint endswith_slash (s : str) : bool :=
  match s with
  | [] => false
  | [c] => Ascii.eqb c "/"
  | _ :: s' => endswith_slash s'
  end.

(** [os.path.join(a, b)] on a POSIX system. *)
Definition path_join (a b : str) : str :=
  if startswith b (py "/") then b
  else
    match a with
    | [] => b
    | _ => if endswith_slash a then a ++ b else a ++ py "/" ++ b
    end.

(** Lines 198 and 249. *)
Definition output_file (output_dir org_name : str) : str :=
  path_join output_dir (replace_spaces org_name ++ py ".csv").

(** Lines 228-238. *)
Definition no_match_row (org_name org_type date : str) : account_info :=
  {| search_term := org_name;
     organization_type := org_type;
     handle := py "NO_MATCH_FOUND";
     display_name := Some [];
     description := Some [];
     follower_count := 0;
     following_count := 0;
     posts_count := 0;
     search_date := date |}.

(** Lines 264-274. *)
Definition error_row (org_name org_type : str) (e : batch_error) (date : str)
    : account_info :=
  {| search_term := org_name;
     organization_type := org_type;
     handle := py "ERROR";
     display_name := Some (str_of_error e);
     description := Some [];
     follower_count := 0;
     following_count := 0;
     posts_count := 0;
     search_date := date |}.

(** The loop of lines 220-226 over what is left of [results]: when
    [GITHUB_ENV] is set, line 226 writes to [env_file], which the [with]
    block of lines 216-217 has closed. [written] are the rows of the output
    file so far. *)
Fixpoint write_rows (env_set : bool) (results written : list account_info)
    : list account_info * option batch_error :=
  match results with
  | [] => (written, None)
  | result :: later =>
      let written := written ++ [result] in
      if env_set then (written, Some ClosedFile)
      else write_rows env_set later written
  end.

Section Batch.

(** What [self.search_organization], [datetime.now] and [time.sleep] act
    on: the remote, the clock and the log of the limiter. The search
    returns a list: its body catches every exception and the wrapper of
    [rate_limit(calls=100, ...)] raises none. [None] stands for a remote
    whose script has run out. *)
Variable S : Type.
Variable search : str -> str -> S -> option (list account_info * S).
Variable date_now : S -> str * S.
Variable sleep : Z -> S -> S.

Variable h : host.
Variable output_dir : str.

(** The [try] block of lines 194-244. *)
Definition write_results (org_name org_type : str) (s : S) (d : disk)
    : option (outcome unit * S * disk) :=
  match search org_name org_type s with
  | None => None
  | Some (results, s) =>
      let path := output_file output_dir org_name in
      match open_error h path with
      | Some message => Some (Failed (OSError message), s, d)
      | None =>
          let env_set := truthy (github_env h) in
          match (if env_set
                 then match github_env h with
                      | Some env_path => open_error h env_path
                      | None => None
                      end
                 else None) with
          | Some message => Some (Failed (OSError message), s, write path [] d)
          | None =>
              let headers :=
                if env_set then env_headers d ++ [org_name]
                else env_headers d in
              match results with
              | _ :: _ =>
                  let (written, raised) := write_rows env_set results [] in
                  let d := {| files := (path, written) :: files d;
                              env_headers := headers |} in
                  match raised with
                  | Some e => Some (Failed e, s, d)
                  | None =>
                      if env_set then Some (Failed ClosedFile, s, d)
                      else Some (Done tt, s, d)
                  end
              | [] =>
                  let (date, s) := date_now s in
                  let d := {| files := (path, [no_match_row org_name org_type
                                                 date])
                                       :: files d;
                              env_headers := headers |} in
                  if env_set then Some (Failed ClosedFile, s, d)
                  else Some (Done tt, s, d)
              end
          end
      end
  end.

(** The [except] block of lines 246-275. *)
Definition write_error (org_name org_type : str) (e : batch_error) (s : S)
    (d : disk) : outcome unit * S * disk :=
  let path := output_file output_dir org_name in
  match open_error h path with
  | Some message => (Failed (OSError message), s, d)
  | None =>
      let (date, s) := date_now s in
      (Done tt, s, write path [error_row org_name org_type e date] d)
  end.

(** One pass of the loop of lines 189-278. *)
Definition process (org : row) (s : S) (d : disk)
    : option (outcome unit * S * disk) :=
  match lookup (py "organization_name") org with
  | None => Some (Failed (KeyError (py "organization_name")), s, d)
  | Some org_name =>
      match lookup (py "type") org with
      | None => Some (Failed (KeyError (py "type")), s, d)
      | Some org_type =>
          match write_results org_name org_type s d with
          | None => None
          | Some (Done _, s, d) => Some (Done tt, sleep 10 s, d)
          | Some (Failed e, s, d) =>
              match write_error org_name org_type e s d with
              | (Done _, s, d) => Some (Done tt, sleep 10 s, d)
              | (Failed e', s, d) => Some (Failed e', s, d)
              end
          end
      end
  end.

(** The loop of lines 189-278 within the [try] of line 174: what a pass
    raises ends the batch, raised again by line 284. [organizations] is what
    line 179 has read. *)
Fixpoint search_from_csv (organizations : list row) (s : S) (d : disk)
    : option (outcome unit * S * disk) :=
  match organizations with
  | [] => Some (Done tt, s, d)
  | org :: later =>
      match process org s d with
      | None => None
      | Some (Done _, s, d) => search_from_csv later s d
      | Some (Failed e, s, d) => Some (Failed e, s, d)
      end
  end.

End Batch.

(** The batch on the search of this file: the remote's script and the world
    of [search_organization]. *)
Definition remote_world : Type := list response * world.

Definition search_in (org_name org_type : str) (s : remote_world)
    : option (list account_info * remote_world) :=
  match search_organization org_name org_type (fst s) (snd s) with
  | Some (Ok matched_accounts, rest, w) => Some (matched_accounts, (rest, w))
  | _ => None
  end.

Definition date_now_in (s : remote_world) : str * remote_world :=
  (today (clock (snd s) (ticks (snd s))), (fst s, snd (now (snd s)))).

Definition sleep_in (seconds : Z) (s : remote_world) : remote_world :=
  (fst s, snd (emit (Slept seconds) (snd s))).


(** ** Login: [get_client], lines 41-70 *)

(** What [client.login] raises, with its [str]: an AtProtocolError or an
    exception of another subclass of [Exception]. *)
Inductive login_error :=
| ProtocolError (message : str)
| OtherError (message : str).

Definition str_of_login_error (e : login_error) : str :=
  match e with
  | ProtocolError message => message
  | OtherError message => message
  end.

(** What [get_client] does to the outside: a call of [client.login], a
    prompt of [getpass.getpass], a line printed. *)
Inductive login_event :=
| LoginSent (username password : str) (totp : option str)
| Prompted
| Printed (line : str).

(** What [getpass.getpass] does at a prompt (line 57): it returns the code
    typed, or it raises (EOFError without a terminal, KeyboardInterrupt);
    [name] is the class of what it raises. *)
Inductive prompt_answer :=
| Typed (code : str)
| PromptRaises (name : str).

(** How [get_client] ends: line 70, line 46, lines 65 and 68, or an
    exception of the prompt of line 57, which stands outside the [try] of
    line 58 and inside the handler of line 53, so that nothing catches it. *)
Inductive client_outcome :=
| Returned
| RaisedValueError
| RaisedLogin (e : login_error)
| RaisedPrompt (name : str).

(** Line 54. *)
Definition two_factor_required (message : str) : bool :=
  contains message (py "AuthFactorTokenRequired").

(** The loop of lines 56-63. [typed] is what the prompts to come do and
    [answers] what the server answers to the logins to come ([None]: the
    login succeeds). The loop ends by a login that succeeds or by a prompt
    that raises; [None] stands for a script that has run out before. *)
Fixpoint two_factor (username password : str) (typed : list prompt_answer)
    (answers : list (option login_error)) (log : list login_event)
    : option (client_outcome * list prompt_answer
              * list (option login_error) * list login_event) :=
  match typed with
  | [] => None
  | PromptRaises name :: typed =>
      Some (RaisedPrompt name, typed, answers, log ++ [Prompted])
  | Typed code :: typed =>
      let log := log ++ [Prompted; LoginSent username password (Some code)] in
      match answers with
      | [] => None
      | None :: answers =>
          Some (Returned, typed, answers,
                log ++ [Printed (py "Successfully logged in with 2FA!")])
      | Some e :: answers =>
          two_factor username password typed answers
            (log ++ [Printed (py "Invalid 2FA code. Please try again. Error: "
                              ++ str_of_login_error e)])
      end
  end.

(** [get_client]: [username] and [password] are what [os.environ.get]
    returns for [BSKY_USERNAME] and [BSKY_APP_PASSWORD]. An exception raised
    in the handler of line 53 is not caught by the one of line 66. *)
Definition get_client (username password : option str)
    (typed : list prompt_answer) (answers : list (option login_error))
    : option (client_outcome * list prompt_answer
              * list (option login_error) * list login_event) :=
  match username, password with
  | Some ((_ :: _) as username), Some ((_ :: _) as password) =>
      let log := [LoginSent username password None] in
      match answers with
      | [] => None
      | None :: answers =>
          Some (Returned, typed, answers,
                log ++ [Printed (py "Successfully logged in!")])
      | Some (ProtocolError message) :: answers =>
          if two_factor_required message then
            two_factor username password typed answers
              (log ++ [Printed (py "Two-factor authentication is required.")])
          else Some (RaisedLogin (ProtocolError message), typed, answers, log)
      | Some (OtherError message) :: answers =>
          Some (RaisedLogin (OtherError message), typed, answers,
                log ++ [Printed (py "Login failed: " ++ message)])
      end
  | _, _ => Some (RaisedValueError, typed, answers, [])
  end.

(** The logins of a log, in their order: user name, password and code. *)
Fixpoint sent (log : list login_event) : list (str * str * option str) :=
  match log with
  | [] => []
  | LoginSent username password totp :: log =>
      (username, password, totp) :: sent log
  | _ :: log => sent log
  end.

(** The prompts of a log. *)
Fixpoint prompts (log : list login_event) : nat :=
  match log with
  | [] => 0
  | Prompted :: log => Datatypes.S (prompts log)
  | _ :: log => prompts log
  end.

(** ** Sample data of the examples *)

Definition oxford_actor : actor :=
  {| actor_handle := py "ox.ac.uk";
     actor_display_name := Some (py "Oxford University");
     actor_description := None;
     actor_followers_count := None;
     actor_following_count := None;
     actor_posts_count := None |}.

Definition underscore_actor : actor :=
  {| actor_handle := py "oxford-university.example";
     actor_display_name := Some (py "Oxford_University");
     actor_description := None;
     actor_followers_count := None;
     actor_following_count := None;
     actor_posts_count := None |}.

Definition sample_world : world :=
  {| clock := fun _ => {| unix_time := 1700000000; today := py "2023-11-14" |};
     ticks := 0;
     trace := [] |}.

Definition oxford_row : row :=
  [(py "organization_name", py "Oxford"); (py "type", py "university")].

Definition acme_row : row :=
  [(py "organization_name", py "Acme Corp"); (py "type", py "company")].

(** A machine without [GITHUB_ENV] and one with it; both open every file. *)
Definition desk_host : host :=
  {| github_env := None; open_error := fun _ => None |}.

Definition ci_host : host :=
  {| github_env := Some (py "/home/runner/env"); open_error := fun _ => None |}.

(** A machine whose file system refuses every file. *)
Definition full_host : host :=
  {| github_env := None;
     open_error := fun _ => Some (py "No space left on device") |}.

Definition empty_disk : disk := {| files := []; env_headers := [] |}.

(* ===================================================================== *)
(** * Part II: properties *)
(* ===================================================================== *)

(** ** EditDistance *)

Lemma differ_sym (a b : ascii) : differ a b = differ b a.
Proof. unfold differ. rewrite Ascii.eqb_sym. reflexivity. Qed.

Lemma recurrence_nil_r (s : str) : recurrence s [] = length s.
Proof. destruct s; reflexivity. Qed.

Lemma recurrence_cons (a b : ascii) (s t : str) :
  recurrence (a :: s) (b :: t) =
  min3 (recurrence s (b :: t) + 1) (recurrence (a :: s) t + 1)
    (recurrence s t + differ a b).
Proof. reflexivity. Qed.

Lemma recurrence_sym (s t : str) : recurrence s t = recurrence t s.
Proof.
  revert t. induction s as [|a s IHs]; intros t.
  - rewrite recurrence_nil_r. reflexivity.
  - induction t as [|b t IHt].
    + reflexivity.
    + rewrite !recurrence_cons, IHt, (IHs (b :: t)), (IHs t), differ_sym.
      unfold min3. lia.
Qed.

Lemma prefix_distance_sym (p q : str) :
  prefix_distance p q = prefix_distance q p.
Proof. apply recurrence_sym. Qed.

Lemma prefix_distance_nil_l (q : str) : prefix_distance [] q = length q.
Proof. unfold prefix_distance. simpl. apply length_rev. Qed.

Lemma prefix_distance_nil_r (p : str) : prefix_distance p [] = length p.
Proof.
  unfold prefix_distance. simpl. rewrite recurrence_nil_r. apply length_rev.
Qed.

Lemma prefix_distance_snoc (p q : str) (a b : ascii) :
  prefix_distance (p ++ [a]) (q ++ [b]) =
  min3 (prefix_distance p (q ++ [b]) + 1) (prefix_distance (p ++ [a]) q + 1)
    (prefix_distance p q + differ a b).
Proof.
  unfold prefix_distance. rewrite !rev_unit. apply recurrence_cons.
Qed.

Lemma getitem_map_seq {A} (f : nat -> A) (n i : nat) :
  i < n -> getitem (map f (seq 0 n)) i = Ok (f i).
Proof.
  intros Hi. unfold getitem.
  rewrite nth_error_map, nth_error_seq.
  destruct (Nat.ltb_spec i n); [reflexivity | lia].
Qed.

Lemma firstn_snoc (q r : str) (b : ascii) :
  firstn (S (length q)) (q ++ b :: r) = q ++ [b].
Proof.
  replace (q ++ b :: r) with ((q ++ [b]) ++ r)
    by (rewrite <- app_assoc; reflexivity).
  replace (S (length q)) with (length (q ++ [b]))
    by (rewrite length_app; simpl; lia).
  rewrite firstn_app, firstn_all, Nat.sub_diag. simpl. apply app_nil_r.
Qed.

Lemma firstn_prefix (q r : str) : firstn (length q) (q ++ r) = q.
Proof.
  rewrite firstn_app, firstn_all, Nat.sub_diag. simpl. apply app_nil_r.
Qed.

(** The inner loop completes the row of [p ++ [c1]]: no index is out of
    range and every cell obeys the recurrence. *)
Lemma fill_row_correct (c1 : ascii) (p s2 : str) :
  forall r q, s2 = q ++ r ->
    fill_row c1 (row_of p s2) r (length q)
      (map (fun k => prefix_distance (p ++ [c1]) (firstn k s2))
         (seq 0 (S (length q))))
    = Ok (row_of (p ++ [c1]) s2).
Proof.
  induction r as [|c2 r IH]; intros q Hs2.
  - rewrite app_nil_r in Hs2. subst q. reflexivity.
  - assert (Hlen : length s2 = length q + S (length r))
      by (subst s2; rewrite length_app; reflexivity).
    cbn [fill_row]. unfold row_of at 1 2.
    rewrite !getitem_map_seq by lia. cbn [bind].
    replace (length q + 1) with (S (length q)) by lia.
    replace (firstn (S (length q)) s2) with (q ++ [c2])
      by (subst s2; symmetry; apply firstn_snoc).
    replace (firstn (length q) s2) with q
      by (subst s2; symmetry; apply firstn_prefix).
    rewrite <- prefix_distance_snoc.
    specialize (IH (q ++ [c2])).
    replace (length (q ++ [c2])) with (S (length q)) in IH
      by (rewrite length_app; simpl; lia).
    rewrite <- IH by (subst s2; rewrite <- app_assoc; reflexivity).
    f_equal.
    rewrite (seq_S (S (length q))), map_app. cbn [map Nat.add].
    replace (firstn (S (length q)) s2) with (q ++ [c2])
      by (subst s2; symmetry; apply firstn_snoc).
    reflexivity.
Qed.

Lemma rows_correct (s2 : str) :
  forall s1 p,
    rows s1 s2 (length p) (row_of p s2) = Ok (row_of (p ++ s1) s2).
Proof.
  induction s1 as [|c1 s1 IH]; intros p.
  - rewrite app_nil_r. reflexivity.
  - cbn [rows].
    pose proof (fill_row_correct c1 p s2 s2 [] eq_refl) as Hfill.
    cbn [length seq map firstn] in Hfill.
    rewrite prefix_distance_nil_r, length_app in Hfill. cbn [length] in Hfill.
    rewrite Hfill. cbn [bind].
    specialize (IH (p ++ [c1])).
    rewrite length_app, Nat.add_1_r in IH. cbn [length] in IH.
    rewrite IH, <- app_assoc. reflexivity.
Qed.

(** Line 161: [range(len(s2) + 1)] is the row of the empty prefix. *)
Lemma first_row (s2 : str) : seq 0 (length s2 + 1) = row_of [] s2.
Proof.
  unfold row_of. rewrite Nat.add_1_r.
  rewrite <- (map_id (seq 0 (S (length s2)))) at 1.
  apply map_ext_in. intros j Hj. apply in_seq in Hj.
  rewrite prefix_distance_nil_l, length_firstn. lia.
Qed.

Lemma last_item_row (p s2 : str) :
  last_item (row_of p s2) = Ok (prefix_distance p s2).
Proof.
  unfold last_item, row_of.
  destruct (map _ (seq 0 (S (length s2)))) as [|x l] eqn:E.
  - discriminate E.
  - rewrite <- E, length_map, length_seq.
    replace (S (length s2) - 1) with (length s2) by lia.
    rewrite getitem_map_seq by lia. rewrite firstn_all. reflexivity.
Qed.

(** The dynamic programme returns the value of the recurrence, and never
    raises. *)
Lemma distance_rows_correct (s1 s2 : str) :
  distance_rows s1 s2 = Ok (prefix_distance s1 s2).
Proof.
  unfold distance_rows. destruct (Nat.eqb_spec (length s2) 0) as [H0|H0].
  - destruct s2; [|discriminate]. rewrite prefix_distance_nil_r. reflexivity.
  - rewrite first_row.
    change 0 with (length (@nil ascii)) at 1.
    rewrite rows_correct. cbn [bind app]. apply last_item_row.
Qed.

(** Whichever argument is the shorter one, the function returns the value
    of the recurrence on its two arguments. *)
Lemma levenshtein_distance_correct (s1 s2 : str) :
  levenshtein_distance s1 s2 = Ok (prefix_distance s1 s2).
Proof.
  funelim (levenshtein_distance s1 s2).
  - match goal with IH : levenshtein_distance _ _ = Ok _ |- _ => rewrite IH end.
    rewrite prefix_distance_sym. reflexivity.
  - apply distance_rows_correct.
Qed.

(** C9. The edit distance is symmetric: [levenshtein_distance a b] and
    [levenshtein_distance b a] are the same value, for all strings, whether
    the call swaps its arguments (line 156) or both run the rows. *)
Theorem levenshtein_distance_symmetric (a b : str) :
  levenshtein_distance a b = levenshtein_distance b a.
Proof.
  rewrite !levenshtein_distance_correct.
  f_equal. apply prefix_distance_sym.
Qed.

Lemma recurrence_refl (s : str) : recurrence s s = 0.
Proof.
  induction s as [|a s IH]; [reflexivity|].
  rewrite recurrence_cons, IH. unfold differ. rewrite Ascii.eqb_refl.
  unfold min3. lia.
Qed.

(** The distance from a string to itself is zero. *)
Lemma levenshtein_distance_refl (a : str) : levenshtein_distance a a = Ok 0.
Proof.
  rewrite levenshtein_distance_correct. unfold prefix_distance.
  rewrite recurrence_refl. reflexivity.
Qed.

(** The distance between a string and the empty string is the length
    of the string, whichever of the two comes first: the early return of
    line 159 after the swap of line 156. *)
Lemma levenshtein_distance_empty (a : str) :
  levenshtein_distance a [] = Ok (length a) /\
  levenshtein_distance [] a = Ok (length a).
Proof.
  rewrite !levenshtein_distance_correct.
  rewrite prefix_distance_nil_l, prefix_distance_nil_r. split; reflexivity.
Qed.

Example kitten_sitting :
  levenshtein_distance (py "kitten") (py "sitting") = Ok 3.
Proof. reflexivity. Qed.

(** ** Text *)

Lemma startswith_spec (prefix s : str) :
  startswith s prefix = true <-> exists rest, s = prefix ++ rest.
Proof.
  revert s. induction prefix as [|a prefix IH]; intros s; simpl.
  - split; [intros _; exists s; reflexivity | reflexivity].
  - destruct s as [|b s].
    + split; [discriminate | intros [rest H]; discriminate H].
    + rewrite andb_true_iff, Ascii.eqb_eq, IH. split.
      * intros [-> [rest ->]]. exists rest. reflexivity.
      * intros [rest H]. injection H as -> ->. split; [reflexivity|].
        exists rest. reflexivity.
Qed.

(** [contains] decides [substring]: the operator [in] of two strings. *)
Lemma contains_spec (sub s : str) :
  contains s sub = true <-> substring sub s.
Proof.
  unfold substring. induction s as [|c s IH].
  - simpl. rewrite orb_false_r, startswith_spec. split.
    + intros [rest H]. exists [], rest. exact H.
    + intros [before [after H]]. destruct before; [|discriminate H].
      exists after. exact H.
  - cbn [contains]. rewrite orb_true_iff, startswith_spec, IH. split.
    + intros [[rest H] | [before [after H]]].
      * exists [], rest. exact H.
      * exists (c :: before), after. rewrite H. reflexivity.
    + intros [before [after H]]. destruct before as [|b before].
      * left. exists after. exact H.
      * right. injection H as _ H. exists before, after. exact H.
Qed.

Lemma contains_nil (s : str) : contains s [] = true.
Proof. apply contains_spec. exists [], s. reflexivity. Qed.

(** No run at all: nothing to keep in [s] and no run under way. *)
Lemma runs_nil (keep : ascii -> bool) (s run : str) :
  runs keep s run = [] <->
  run = [] /\ forallb (fun c => negb (keep c)) s = true.
Proof.
  revert run. induction s as [|c s IH]; intros run; cbn [runs forallb].
  - destruct run; split; try (intros [H _]); try discriminate; auto.
  - destruct (keep c); cbn [negb andb].
    + rewrite IH. split.
      * intros [H _]. destruct run; discriminate H.
      * intros [_ H]. discriminate H.
    + destruct run as [|a run].
      * apply IH.
      * split; [discriminate | intros [H _]; discriminate H].
Qed.

Lemma word_is_not_space (c : ascii) : is_word c = true -> is_space c = false.
Proof.
  destruct c as [[] [] [] [] [] [] [] []]; vm_compute; congruence.
Qed.

Lemma lower_char_word (c : ascii) : is_word (lower_char c) = is_word c.
Proof.
  destruct c as [[] [] [] [] [] [] [] []]; vm_compute; reflexivity.
Qed.

(** Lowering a string neither makes nor loses word tokens. *)
Lemma findall_words_lower_nil (s : str) :
  findall_words (lower s) = [] <-> findall_words s = [].
Proof.
  unfold findall_words, lower. rewrite !runs_nil.
  split; intros [_ H]; (split; [reflexivity|]);
    rewrite forallb_forall in *; intros c Hc.
  - rewrite <- lower_char_word. apply H, in_map, Hc.
  - apply in_map_iff in Hc. destruct Hc as [c0 [<- Hc0]].
    rewrite lower_char_word. apply H, Hc0.
Qed.

(** A string with a word token has a whitespace-separated token. *)
Lemma split_nil_findall_nil (s : str) :
  split s = [] -> findall_words s = [].
Proof.
  unfold split, findall_words. rewrite !runs_nil.
  intros [_ H]. split; [reflexivity|].
  rewrite forallb_forall in *. intros c Hc. specialize (H c Hc).
  rewrite negb_involutive in H.
  destruct (is_word c) eqn:Hw; [|reflexivity].
  apply word_is_not_space in Hw. congruence.
Qed.

(** ** FuzzyMatcher *)

Lemma any_close_total (org_word : str) (search_words : list str) :
  exists hit, any_close org_word search_words = Ok hit.
Proof.
  induction search_words as [|w ws [hit IH]]; cbn [any_close].
  - exists false. reflexivity.
  - rewrite levenshtein_distance_correct. cbn [bind].
    destruct (_ <=? 2); [exists true; reflexivity | exists hit; exact IH].
Qed.

Lemma count_matched_total (org_words search_words : list str) :
  forall matched_words,
    exists n, count_matched org_words search_words matched_words = Ok n.
Proof.
  induction org_words as [|w ws IH]; intros m; cbn [count_matched].
  - exists m. reflexivity.
  - destruct (any_close_total w search_words) as [hit ->]. cbn [bind].
    apply IH.
Qed.

(** The division of line 151 is by zero exactly when [org_name] has no
    whitespace-separated token. *)
Lemma fuzzy_match_no_tokens (org_name search_text : str) :
  split (lower org_name) = [] ->
  fuzzy_match org_name search_text = Raise ZeroDivisionError.
Proof. intros H. unfold fuzzy_match. rewrite H. reflexivity. Qed.

Lemma fuzzy_match_tokens (org_name search_text : str) :
  split (lower org_name) <> [] ->
  exists accepted, fuzzy_match org_name search_text = Ok accepted.
Proof.
  intros H. unfold fuzzy_match.
  destruct (count_matched_total (split (lower org_name))
              (split (lower search_text)) 0) as [n ->].
  cbn [bind]. unfold ratio_at_least_07.
  destruct (split (lower org_name)) as [|w ws]; [contradiction|].
  cbn [length Nat.eqb]. eexists. reflexivity.
Qed.

(** An [org_name] without word tokens is accepted by the second test:
    [org_without_of] is the empty string. *)
Lemma normalized_substring_no_words (org_name search_text : str) :
  org_words_of org_name = [] ->
  normalized_substring org_name search_text = true.
Proof.
  intros H. unfold normalized_substring, org_without_of_of. rewrite H.
  apply contains_nil.
Qed.

(** The decision never raises: [fuzzy_match] is only asked about an
    [org_name] that has a token. *)
Lemma match_decision_total (org_name search_text : str) :
  exists accepted, match_decision org_name search_text = Ok accepted.
Proof.
  unfold match_decision.
  destruct (exact_substring _ _); [exists true; reflexivity|].
  destruct (normalized_substring _ _) eqn:Hnorm; [exists true; reflexivity|].
  destruct (all_tokens_present _ _); [exists true; reflexivity|].
  apply fuzzy_match_tokens. intros Hsplit.
  apply split_nil_findall_nil in Hsplit.
  rewrite (normalized_substring_no_words _ _ Hsplit) in Hnorm.
  discriminate Hnorm.
Qed.

Lemma oxford_press_decision :
  match_decision (py "University of Oxford") (py "oxford university press")
  = Ok false.
Proof. vm_compute. reflexivity. Qed.

(** C1, as the code has it. For "University of Oxford" against "oxford
    university press" each of the four tests rejects: the text holds neither
    the lowered name nor "university oxford", the token "of" occurs nowhere
    in it, and the fuzzy test finds 2 of the 3 tokens, a share below 0.7.
    The decision is false. *)
Theorem oxford_press_rejected :
  let org_name := py "University of Oxford" in
  let search_text := py "oxford university press" in
  exact_substring org_name search_text = false /\
  normalized_substring org_name search_text = false /\
  all_tokens_present org_name search_text = false /\
  count_matched (split (lower org_name)) (split (lower search_text)) 0 = Ok 2 /\
  length (split (lower org_name)) = 3 /\
  fuzzy_match org_name search_text = Ok false /\
  match_decision org_name search_text = Ok false.
Proof.
  cbv zeta. repeat split; vm_compute; reflexivity.
Qed.

(** C1, as stated, fails: the decision is not true on that pair. *)
Lemma oxford_press_not_accepted :
  match_decision (py "University of Oxford") (py "oxford university press")
  <> Ok true.
Proof.
  rewrite oxford_press_decision. discriminate.
Qed.

Example acme_rejected :
  match_decision (py "Acme Corp") (py "totally unrelated text") = Ok false.
Proof. vm_compute. reflexivity. Qed.

(** C2, as the code has it. For an [org_name] without whitespace-separated
    token [fuzzy_match] raises ZeroDivisionError whatever the text: line 151
    divides by [len(org_words)], which is zero. The decision of lines 97-100
    does not reach it: such a name has no word token either,
    [org_without_of] is the empty string, the second test accepts and the
    decision is true. *)
Theorem zero_tokens_fuzzy_match_not_reached (org_name search_text : str) :
  split (lower org_name) = [] ->
  fuzzy_match org_name search_text = Raise ZeroDivisionError /\
  org_without_of_of org_name = [] /\
  normalized_substring org_name search_text = true /\
  match_decision org_name search_text = Ok true.
Proof.
  intros Hsplit.
  assert (Hwords : org_words_of org_name = [])
    by (apply split_nil_findall_nil, Hsplit).
  split; [apply fuzzy_match_no_tokens, Hsplit|].
  split; [unfold org_without_of_of; rewrite Hwords; reflexivity|].
  split; [apply normalized_substring_no_words, Hwords|].
  unfold match_decision.
  rewrite (normalized_substring_no_words _ _ Hwords).
  destruct (exact_substring _ _); reflexivity.
Qed.

Lemma zero_tokens_fuzzy_match_not_reached_witness :
  split (lower (py "   ")) = [] /\
  fuzzy_match (py "   ") (py "oxford university") = Raise ZeroDivisionError /\
  org_without_of_of (py "   ") = [] /\
  normalized_substring (py "   ") (py "oxford university") = true /\
  match_decision (py "   ") (py "oxford university") = Ok true.
Proof.
  split; [reflexivity|].
  apply (zero_tokens_fuzzy_match_not_reached (py "   ")
           (py "oxford university")).
  reflexivity.
Defined.

(** C2, as stated, fails: on an [org_name] of three blanks [fuzzy_match]
    does not return false, it raises. *)
Lemma fuzzy_match_blank_org_name_not_false :
  ~ (forall org_name search_text : str,
       split (lower org_name) = [] ->
       fuzzy_match org_name search_text = Ok false).
Proof.
  intros Hclaim.
  specialize (Hclaim (py "   ") (py "oxford university") eq_refl).
  rewrite fuzzy_match_no_tokens in Hclaim by reflexivity.
  discriminate Hclaim.
Qed.

(** C4, as the code has it. The third test accepts exactly when every word
    token of [org_name] ("of" too) occurs in [search_text] as a substring:
    [word in search_text] is the substring test of two strings, and the text
    is not split into tokens. *)
Theorem all_tokens_present_iff_substrings (org_name search_text : str) :
  all_tokens_present org_name search_text = true <->
  Forall (fun word => substring word search_text) (org_words_of org_name).
Proof.
  unfold all_tokens_present.
  rewrite forallb_forall, Forall_forall.
  split; intros H word Hword; apply contains_spec, H, Hword.
Qed.

(** C4, as stated, fails: "art" is no whitespace token of "smart people",
    and the third test accepts it, since "smart" holds "art". *)
Lemma all_tokens_present_not_token_containment :
  ~ (all_tokens_present (py "art") (py "smart people") = true <->
     Forall (fun word => In word (split (py "smart people")))
       (org_words_of (py "art"))).
Proof.
  intros [Hsplit _].
  assert (Haccepts : all_tokens_present (py "art") (py "smart people") = true)
    by reflexivity.
  specialize (Hsplit Haccepts).
  change (org_words_of (py "art")) with [py "art"] in Hsplit.
  change (split (py "smart people")) with [py "smart"; py "people"] in Hsplit.
  inversion Hsplit as [|word rest Hin _]; subst.
  destruct Hin as [H | [H | []]]; discriminate H.
Qed.

(** C10. An [org_name] without word tokens (empty, or punctuation and
    blanks only) is accepted whatever the text: its normalized form is the
    empty string, a substring of every string. *)
Theorem no_word_tokens_accepts_everything (org_name search_text : str) :
  findall_words org_name = [] ->
  org_without_of_of org_name = [] /\
  match_decision org_name search_text = Ok true.
Proof.
  intros Hwords. apply findall_words_lower_nil in Hwords.
  split.
  - unfold org_without_of_of, org_words_of. rewrite Hwords. reflexivity.
  - unfold match_decision.
    rewrite (normalized_substring_no_words _ _ Hwords).
    destruct (exact_substring _ _); reflexivity.
Qed.

Lemma no_word_tokens_accepts_everything_witness :
  findall_words (py "-- !? --") = [] /\
  org_without_of_of (py "-- !? --") = [] /\
  match_decision (py "-- !? --") (py "oxford university press") = Ok true.
Proof.
  split; [reflexivity|].
  apply (no_word_tokens_accepts_everything (py "-- !? --")
           (py "oxford university press")).
  reflexivity.
Defined.

(** ** RateLimiter *)

Section RateLimitProperties.

Variable time : Type.
Variable of_int : Z -> time.
Variable add sub : time -> time -> time.
Variable ltb : time -> time -> bool.
Variables calls period : Z.

Local Abbreviation wrapper' := (wrapper time of_int add sub ltb calls period).
Local Abbreviation invocations' :=
  (invocations time of_int add sub ltb calls period).
Local Abbreviation in_window' := (in_window time of_int sub ltb period).

(** An invocation either drops the oldest timestamp for the new one or adds
    the new one to a log that is not full: the log never outgrows [calls]. *)
Lemma wrapper_length (current_time : time) (calls_made : list time) :
  (0 <= calls)%Z ->
  (Z.of_nat (length calls_made) <= calls)%Z ->
  (Z.of_nat (length (fst (wrapper' current_time calls_made))) <= calls)%Z.
Proof.
  intros Hcalls Hlen. unfold wrapper.
  pose proof (filter_length_le (recent time of_int sub ltb period current_time)
                calls_made) as Hpruned.
  destruct (filter _ calls_made) as [|oldest rest].
  - destruct (Z.leb_spec calls (Z.of_nat (length (@nil time))));
      cbn [fst length app] in *; lia.
  - destruct (Z.leb_spec calls (Z.of_nat (length (oldest :: rest))));
      cbn [fst]; rewrite length_app; cbn [length] in *; lia.
Qed.

Lemma invocations_length (readings : list time) :
  forall calls_made,
    (0 <= calls)%Z ->
    (Z.of_nat (length calls_made) <= calls)%Z ->
    (Z.of_nat (length (invocations' readings calls_made)) <= calls)%Z.
Proof.
  induction readings as [|current_time later IH]; intros calls_made Hc Hlen.
  - exact Hlen.
  - cbn [invocations]. apply IH; [exact Hc|].
    apply wrapper_length; assumption.
Qed.


(** C3. After any sequence of invocations of a function wrapped with
    [calls] (not negative) and [period], the log holds at most [calls]
    timestamps in all, hence at most [calls] in the window of length
    [period] that ends at any time [t]. *)
Theorem log_within_any_window (readings : list time) (t : time) :
  (0 <= calls)%Z ->
  let log := invocations time of_int add sub ltb calls period readings [] in
  (Z.of_nat (length log) <= calls)%Z /\
  (Z.of_nat (length (filter (in_window time of_int sub ltb period t) log))
   <= calls)%Z.
Proof.
  intros Hcalls log.
  assert (Hlog : (Z.of_nat (length log) <= calls)%Z)
    by (apply invocations_length; [exact Hcalls | cbn [length]; lia]).
  split; [exact Hlog|].
  pose proof (filter_length_le (in_window' t) log).
  lia.
Qed.

End RateLimitProperties.

(** The third of three calls at the same second, with two calls allowed in
    ten seconds: it sleeps ten seconds and logs the time read before the
    sleep. *)
Example third_call_back_to_back :
  wrapper_seconds 2 10 0%Z [0%Z; 0%Z] = ([0%Z; 0%Z], Ok (Some 10%Z)).
Proof. reflexivity. Qed.

Lemma log_within_any_window_witness :
  (0 <= 2)%Z /\
  (Z.of_nat (length (invocations Z (fun n => n) Z.add Z.sub Z.ltb 2 10
                       [0; 0; 0; 3; 12]%Z [])) <= 2)%Z /\
  (Z.of_nat (length (filter (in_window Z (fun n => n) Z.sub Z.ltb 10 12%Z)
                       (invocations Z (fun n => n) Z.add Z.sub Z.ltb 2 10
                          [0; 0; 0; 3; 12]%Z []))) <= 2)%Z.
Proof.
  split; [lia|].
  apply (log_within_any_window Z (fun n => n) Z.add Z.sub Z.ltb 2 10
           [0; 0; 0; 3; 12]%Z 12%Z).
  lia.
Defined.

(** ** PaginatedSearch *)

(** The [for] loop never raises: it appends the accounts of the accepted
    actors and reads the clock once for each. *)
Lemma evaluate_page_spec (org_name org_type : str) (actors : list actor) :
  forall matched_accounts w,
    evaluate_page org_name org_type actors matched_accounts w =
    (Ok (matched_accounts
         ++ page_matches org_name org_type (clock w) actors (ticks w)),
     {| clock := clock w;
        ticks := ticks w
                 + length (page_matches org_name org_type (clock w) actors
                             (ticks w));
        trace := trace w |}).
Proof.
  induction actors as [|a rest IH]; intros matched [clk tk tr];
    cbn [evaluate_page page_matches clock ticks trace].
  - unfold ret. rewrite app_nil_r, Nat.add_0_r. reflexivity.
  - unfold mbind, lift, accepted.
    destruct (match_decision_total org_name (search_text_of a)) as [hit ->].
    destruct hit.
    + unfold now at 1. cbn [clock ticks trace].
      rewrite IH. cbn [clock ticks trace length].
      rewrite <- app_assoc, Nat.add_succ_r. reflexivity.
    + rewrite IH. reflexivity.
Qed.

(** C6. With the page bound 1 and a remote that has two pages to give, the
    first with a next cursor and the second without, the search sends one
    request, returns the matches of the first page and leaves the second
    page with the remote. *)
Theorem first_page_only (org_name org_type : str) (first second : list actor)
    (next : str) (w : world) :
  search_organization org_name org_type
    [Page first (Some next); Page second None] w =
  Some (Ok (page_matches org_name org_type (clock w) first (ticks w)),
        [Page second None],
        {| clock := clock w;
           ticks := ticks w
                    + length (page_matches org_name org_type (clock w) first
                                (ticks w));
           trace := trace w ++ [Requested (request org_name None)] |}).
Proof.
  unfold search_organization, search_organization_bounded.
  cbn [search_loop]. unfold try_page, mbind at 1, emit.
  unfold mbind. rewrite evaluate_page_spec. cbn [clock ticks trace app].
  destruct (truthy (Some next)); reflexivity.
Qed.

(** The organization "Oxford" and one candidate named "Oxford University"
    without description: one account, with the handle and the organization
    type as they came in. *)
Example oxford_end_to_end :
  let candidate :=
    {| actor_handle := py "ox.ac.uk";
       actor_display_name := Some (py "Oxford University");
       actor_description := None;
       actor_followers_count := None;
       actor_following_count := None;
       actor_posts_count := None |} in
  let w :=
    {| clock := fun _ => {| unix_time := 1700000000; today := py "2023-11-14" |};
       ticks := 0;
       trace := [] |} in
  exists w',
    search_organization (py "Oxford") (py "university")
      [Page [candidate] None] w =
    Some (Ok [{| search_term := py "Oxford";
                 organization_type := py "university";
                 handle := py "ox.ac.uk";
                 display_name := Some (py "Oxford University");
                 description := None;
                 follower_count := 0;
                 following_count := 0;
                 posts_count := 0;
                 search_date := py "2023-11-14" |}],
          [], w').
Proof. cbv zeta. eexists. vm_compute. reflexivity. Qed.

(** The matches of a page are its accepted actors, in order. *)
Lemma page_matches_handles (org_name org_type : str) (clk : nat -> reading)
    (actors : list actor) :
  forall tick,
    map handle (page_matches org_name org_type clk actors tick) =
    map actor_handle (filter (accepted org_name) actors).
Proof.
  induction actors as [|a rest IH]; intros tick; cbn [page_matches filter].
  - reflexivity.
  - destruct (accepted org_name a); cbn [map]; rewrite IH; reflexivity.
Qed.

(** A rate-limit error whose reset hint can be read costs one sleep: the
    next pass starts from the same cursor, page count and matches. *)
Lemma search_loop_retry (max_pages : nat) (org_name org_type search_term : str)
    (message : str) (reset : reset_header) (reset_time : Z)
    (script : list response) (cursor : option str) (page_count : nat)
    (matched_accounts : list account_info) (w : world) :
  rate_limited message = true ->
  reset_time_of reset = Ok reset_time ->
  search_loop max_pages org_name org_type search_term
    (Fails (AtProtocolError message reset) :: script) cursor page_count
    matched_accounts w =
  search_loop max_pages org_name org_type search_term script cursor page_count
    matched_accounts
    {| clock := clock w;
       ticks := S (ticks w);
       trace := trace w
                ++ [Requested {| term := search_term; limit := 100;
                                 cursor_param :=
                                   if truthy cursor then cursor else None |};
                    Slept (Z.max 0 (reset_time - unix_time (clock w (ticks w)))
                           + 1)] |}.
Proof.
  intros Hmessage Hreset. cbn [search_loop].
  unfold try_page, mbind, emit, raise, on_error.
  rewrite Hmessage. unfold mbind, lift, now, emit. rewrite Hreset.
  cbn [clock ticks trace]. rewrite <- app_assoc. reflexivity.
Qed.




(** An error that is no rate limit leaves the loop, whatever it has
    collected by then. *)
Lemma search_loop_error (max_pages : nat) (org_name org_type search_term : str)
    (e : exn) (rest : list response) :
  is_rate_limit_error e = false ->
  forall answers cursor page_count matched_accounts w,
    keeps_going max_pages answers page_count = true ->
    exists w',
      search_loop max_pages org_name org_type search_term
        (answers ++ Fails e :: rest) cursor page_count matched_accounts w =
      Some (Raise e, rest, w').
Proof.
  intros He.
  induction answers as [|r later IH]; intros cursor page_count matched w Hgo.
  - cbn [app search_loop]. unfold try_page, mbind, emit, raise, on_error.
    destruct e as [| | |message reset|message]; try (eexists; reflexivity).
    cbn [is_rate_limit_error] in He. rewrite He. eexists. reflexivity.
  - cbn [keeps_going] in Hgo. destruct r as [actors next|e0].
    + apply andb_true_iff in Hgo. destruct Hgo as [Hgo Hlater].
      apply andb_true_iff in Hgo. destruct Hgo as [Hnext Hbound].
      apply Nat.ltb_lt in Hbound.
      cbn [app search_loop]. unfold try_page, mbind at 1, emit.
      unfold mbind. rewrite evaluate_page_spec, Hnext. cbn [negb].
      destruct (Nat.leb_spec max_pages (page_count + 1)); [lia|].
      unfold emit, ret. apply IH, Hlater.
    + apply andb_true_iff in Hgo. destruct Hgo as [Hretried Hlater].
      destruct e0 as [| | |message reset|message]; try discriminate Hretried.
      assert (Hmessage : rate_limited message = true)
        by (destruct reset; [exact Hretried | exact Hretried | discriminate]).
      assert (Hreset : exists reset_time, reset_time_of reset = Ok reset_time)
        by (destruct reset; [eexists; reflexivity | eexists; reflexivity
                            | discriminate Hretried]).
      destruct Hreset as [reset_time Hreset].
      cbn [app].
      rewrite (search_loop_retry _ _ _ _ _ _ _ _ _ _ _ _ Hmessage Hreset).
      apply IH, Hlater.
Qed.

(** C5. When the remote raises an error that is no rate limit, after any
    number of pages and retried rate limits, the loop raises that error and
    [search_organization] returns the empty list: the matches of the earlier
    pages are dropped and the caller sees no exception. *)
Theorem remote_error_returns_nothing (max_pages : nat) (org_name org_type : str)
    (answers : list response) (e : exn) (rest : list response) (w : world) :
  keeps_going max_pages answers 0 = true ->
  is_rate_limit_error e = false ->
  exists w',
    search_loop max_pages org_name org_type (search_term_of org_name)
      (answers ++ Fails e :: rest) None 0 [] w = Some (Raise e, rest, w') /\
    search_organization_bounded max_pages org_name org_type
      (answers ++ Fails e :: rest) w = Some (Ok [], rest, w').
Proof.
  intros Hgo He.
  destruct (search_loop_error max_pages org_name org_type
              (search_term_of org_name) e rest He answers None 0 [] w Hgo)
    as [w' Hloop].
  exists w'. split; [exact Hloop|].
  unfold search_organization_bounded. rewrite Hloop. reflexivity.
Qed.

Lemma remote_error_returns_nothing_witness :
  let oxford :=
    {| actor_handle := py "ox.ac.uk";
       actor_display_name := Some (py "Oxford University");
       actor_description := None;
       actor_followers_count := None;
       actor_following_count := None;
       actor_posts_count := None |} in
  let w :=
    {| clock := fun _ => {| unix_time := 1700000000; today := py "2023-11-14" |};
       ticks := 0;
       trace := [] |} in
  let answers := [Page [oxford] (Some (py "page-2"))] in
  let e := OtherException (py "connection reset") in
  keeps_going 2 answers 0 = true /\
  is_rate_limit_error e = false /\
  accepted (py "Oxford") oxford = true /\
  exists w',
    search_loop 2 (py "Oxford") (py "university") (search_term_of (py "Oxford"))
      (answers ++ Fails e :: []) None 0 [] w = Some (Raise e, [], w') /\
    search_organization_bounded 2 (py "Oxford") (py "university")
      (answers ++ Fails e :: []) w = Some (Ok [], [], w').
Proof.
  cbv zeta. split; [reflexivity|]. split; [reflexivity|].
  split; [reflexivity|].
  apply (remote_error_returns_nothing 2 (py "Oxford") (py "university"));
    reflexivity.
Defined.

(** Each account of a page carries the date of one of the readings taken
    while the page is evaluated. *)
Lemma page_matches_dates (org_name org_type : str) (clk : nat -> reading)
    (actors : list actor) :
  forall tick,
    Forall (fun r => exists n,
                tick <= n < tick + length (page_matches org_name org_type clk
                                             actors tick)
                /\ search_date r = today (clk n))
      (page_matches org_name org_type clk actors tick).
Proof.
  induction actors as [|a rest IH]; intros tick; cbn [page_matches].
  - constructor.
  - destruct (accepted org_name a); [|apply IH].
    constructor.
    + exists tick. cbn [length search_date account_of]. split; [lia|reflexivity].
    + eapply Forall_impl; [|apply IH].
      cbn [length]. intros r [n [Hn Hdate]]. exists n. split; [lia|exact Hdate].
Qed.

(** Where the dates of the returned accounts come from: an account is one
    the loop started with, or it carries the date of a reading taken during
    the loop. The loop does not change the clock. *)
Lemma search_loop_dates (max_pages : nat) (org_name org_type search_term : str) :
  forall script cursor page_count matched_accounts w l rest w',
    search_loop max_pages org_name org_type search_term script cursor
      page_count matched_accounts w = Some (Ok l, rest, w') ->
    clock w' = clock w /\
    ticks w <= ticks w' /\
    Forall (fun r => In r matched_accounts \/
                     exists n, ticks w <= n < ticks w'
                               /\ search_date r = today (clock w n)) l.
Proof.
  induction script as [|r script IH];
    intros cursor page_count matched [clk tk tr] l rest w' Hloop.
  - discriminate Hloop.
  - cbn [search_loop] in Hloop. destruct r as [actors next|e].
    + unfold try_page, mbind at 1, emit in Hloop. unfold mbind in Hloop.
      rewrite evaluate_page_spec in Hloop. cbn [clock ticks trace] in *.
      pose proof (page_matches_dates org_name org_type clk actors tk) as Hpage.
      set (page := page_matches org_name org_type clk actors tk) in *.
      assert (Hhere :
        Forall (fun r => In r matched \/
                  exists n, tk <= n < tk + length page
                            /\ search_date r = today (clk n))
          (matched ++ page)).
      { apply Forall_app. split.
        - apply Forall_forall. intros r Hr. left. exact Hr.
        - eapply Forall_impl; [|exact Hpage]. intros r Hr. right. exact Hr. }
      destruct (negb (truthy next)).
      * unfold ret in Hloop. injection Hloop as <- <- <-.
        cbn [clock ticks]. repeat split; [lia|exact Hhere].
      * destruct (max_pages <=? page_count + 1).
        -- unfold ret in Hloop. injection Hloop as <- <- <-.
           cbn [clock ticks]. repeat split; [lia|exact Hhere].
        -- unfold emit, ret in Hloop. cbn [clock ticks trace] in Hloop.
           apply IH in Hloop. cbn [clock ticks] in Hloop.
           destruct Hloop as [Hclock [Hticks Hl]].
           repeat split; [exact Hclock | lia |].
           rewrite Forall_forall in *. intros r Hr.
           destruct (Hl r Hr) as [Hin | [n [Hn Hdate]]].
           ++ destruct (Hhere r Hin) as [Hm | [n [Hn Hdate]]];
                [left; exact Hm | right; exists n; split; [lia|exact Hdate]].
           ++ right. exists n. split; [lia|exact Hdate].
    + unfold try_page, mbind, emit, raise, on_error in Hloop.
      cbn [clock ticks trace] in Hloop.
      destruct e as [| | |message reset|message]; try discriminate Hloop.
      destruct (rate_limited message); [|discriminate Hloop].
      unfold mbind, lift, now, emit in Hloop.
      destruct (reset_time_of reset); [|discriminate Hloop].
      cbn [clock ticks trace] in Hloop.
      apply IH in Hloop. cbn [clock ticks] in *.
      destruct Hloop as [Hclock [Hticks Hl]].
      repeat split; [exact Hclock | lia |].
      eapply Forall_impl; [|exact Hl].
      intros r [Hin | [n [Hn Hdate]]];
        [left; exact Hin | right; exists n; split; [lia|exact Hdate]].
Qed.

(** C8, as the code has it. Line 110 reads the clock anew for every match.
    All accounts one search returns carry the same [search_date] when the
    readings taken during that search fall on one date [d]. *)
Theorem search_date_of_one_day (org_name org_type : str)
    (script : list response) (w : world) (l : list account_info)
    (rest : list response) (w' : world) (d : str) :
  search_organization org_name org_type script w = Some (Ok l, rest, w') ->
  (forall n, ticks w <= n < ticks w' -> today (clock w n) = d) ->
  Forall (fun r => search_date r = d) l.
Proof.
  unfold search_organization, search_organization_bounded.
  intros Hsearch Hday.
  destruct (search_loop _ _ _ _ _ _ _ _ _) as [[[[found|e] rest0] w0]|] eqn:Hloop;
    [| |discriminate Hsearch].
  - injection Hsearch as <- <- <-.
    apply search_loop_dates in Hloop. destruct Hloop as [_ [_ Hl]].
    eapply Forall_impl; [|exact Hl].
    intros r [[] | [n [Hn Hdate]]]. rewrite Hdate. apply Hday, Hn.
  - injection Hsearch as <- <- <-. constructor.
Qed.

Lemma search_date_of_one_day_witness :
  let oxford :=
    {| actor_handle := py "ox.ac.uk";
       actor_display_name := Some (py "Oxford University");
       actor_description := None;
       actor_followers_count := None;
       actor_following_count := None;
       actor_posts_count := None |} in
  let press :=
    {| actor_handle := py "oup.com";
       actor_display_name := Some (py "Oxford University Press");
       actor_description := Some (py "Books");
       actor_followers_count := Some 12%Z;
       actor_following_count := None;
       actor_posts_count := None |} in
  let clk := fun _ : nat =>
    {| unix_time := 1700000000; today := py "2023-11-14" |} in
  let w := {| clock := clk; ticks := 0; trace := [] |} in
  let l := page_matches (py "Oxford") (py "university") clk [oxford; press] 0 in
  let w' := {| clock := clk; ticks := 2;
               trace := [Requested (request (py "Oxford") None)] |} in
  search_organization (py "Oxford") (py "university")
    [Page [oxford; press] None] w = Some (Ok l, [], w') /\
  (forall n, ticks w <= n < ticks w' -> today (clock w n) = py "2023-11-14") /\
  length l = 2 /\
  Forall (fun r => search_date r = py "2023-11-14") l.
Proof.
  cbv zeta.
  split; [reflexivity|]. split; [intros n _; reflexivity|].
  split; [reflexivity|].
  match goal with
  | |- Forall _ (page_matches _ _ ?clk ?actors _) =>
      apply (search_date_of_one_day (py "Oxford") (py "university")
               [Page actors None]
               {| clock := clk; ticks := 0; trace := [] |}
               (page_matches (py "Oxford") (py "university") clk actors 0)
               []
               {| clock := clk; ticks := 2;
                  trace := [Requested (request (py "Oxford") None)] |}
               (py "2023-11-14"))
  end.
  - reflexivity.
  - intros n _. reflexivity.
Defined.

(** C8, as stated, fails: when midnight falls between the recording of two
    matches of one search, their [search_date]s differ. *)
Lemma search_dates_differ_across_midnight :
  let oxford :=
    {| actor_handle := py "ox.ac.uk";
       actor_display_name := Some (py "Oxford University");
       actor_description := None;
       actor_followers_count := None;
       actor_following_count := None;
       actor_posts_count := None |} in
  let press :=
    {| actor_handle := py "oup.com";
       actor_display_name := Some (py "Oxford University Press");
       actor_description := Some (py "Books");
       actor_followers_count := Some 12%Z;
       actor_following_count := None;
       actor_posts_count := None |} in
  let clk := fun n : nat =>
    if n =? 0
    then {| unix_time := 1735689599; today := py "2024-12-31" |}
    else {| unix_time := 1735689600; today := py "2025-01-01" |} in
  let w := {| clock := clk; ticks := 0; trace := [] |} in
  exists l rest w',
    search_organization (py "Oxford") (py "university")
      [Page [oxford; press] None] w = Some (Ok l, rest, w') /\
    ~ (forall r1 r2, In r1 l -> In r2 l -> search_date r1 = search_date r2).
Proof.
  cbv zeta. eexists. eexists. eexists. split.
  - vm_compute. reflexivity.
  - intros Hsame.
    specialize (Hsame _ _ (or_introl eq_refl) (or_intror (or_introl eq_refl))).
    discriminate Hsame.
Qed.

(* ===================================================================== *)
(** * Part III: further properties of the code *)
(* ===================================================================== *)

(** ** EditDistance, lines 153-171 *)

(** X1. [levenshtein_distance] never raises (no index of the two rows is
    out of range) and the function it computes is the one the recurrence on
    last characters defines: the length of the other string against the
    empty string, and the least of an insertion, a deletion and a
    substitution otherwise. *)
Theorem levenshtein_distance_characterised :
  exists D : str -> str -> nat,
    (forall a b, levenshtein_distance a b = Ok (D a b)) /\
    (forall a, D a [] = length a) /\
    (forall b, D [] b = length b) /\
    (forall a b x y,
        D (a ++ [x]) (b ++ [y]) =
        Nat.min (D a (b ++ [y]) + 1)
          (Nat.min (D (a ++ [x]) b + 1)
             (D a b + if Ascii.eqb x y then 0 else 1))).
Proof.
  exists prefix_distance. repeat split.
  - apply levenshtein_distance_correct.
  - apply prefix_distance_nil_r.
  - apply prefix_distance_nil_l.
  - intros a b x y. apply prefix_distance_snoc.
Qed.

Lemma recurrence_bounds (s t : str) :
  length s - length t <= recurrence s t /\
  length t - length s <= recurrence s t /\
  recurrence s t <= Nat.max (length s) (length t).
Proof.
  revert t. induction s as [|a s IHs]; intros t.
  - cbn [recurrence length]. lia.
  - induction t as [|b t IHt].
    + cbn [recurrence length]. lia.
    + rewrite recurrence_cons.
      pose proof (IHs (b :: t)) as H1. pose proof (IHs t) as H2.
      assert (Hd : differ a b <= 1) by (unfold differ; destruct (_ =? _)%char; lia).
      cbn [length] in *. unfold min3. lia.
Qed.

(** X2. The distance is at least the difference of the two lengths and at
    most the greater length. *)
Theorem levenshtein_distance_bounds (a b : str) :
  exists d,
    levenshtein_distance a b = Ok d /\
    length a - length b <= d /\
    length b - length a <= d /\
    d <= Nat.max (length a) (length b).
Proof.
  exists (prefix_distance a b). split.
  - apply levenshtein_distance_correct.
  - pose proof (recurrence_bounds (rev a) (rev b)) as H.
    rewrite !length_rev in H. exact H.
Qed.

Lemma recurrence_zero (s t : str) : recurrence s t = 0 -> s = t.
Proof.
  revert t. induction s as [|a s IHs]; intros t H.
  - destruct t; [reflexivity | discriminate H].
  - destruct t as [|b t]; [discriminate H|].
    rewrite recurrence_cons in H. unfold min3, differ in H.
    destruct (Ascii.eqb_spec a b) as [->|Hab]; [|lia].
    f_equal. apply IHs. lia.
Qed.

(** X3. The distance is zero for equal strings only. *)
Theorem levenshtein_distance_zero_iff_equal (a b : str) :
  levenshtein_distance a b = Ok 0 <-> a = b.
Proof.
  rewrite levenshtein_distance_correct. split.
  - intros H. injection H as H. apply recurrence_zero in H.
    rewrite <- (rev_involutive a), <- (rev_involutive b), H. reflexivity.
  - intros ->. unfold prefix_distance. rewrite recurrence_refl. reflexivity.
Qed.

(** ** FuzzyMatcher, lines 141-151 *)

Lemma any_close_spec (org_word : str) (search_words : list str) :
  any_close org_word search_words
  = Ok (existsb (close_to org_word) search_words).
Proof.
  induction search_words as [|w ws IH]; cbn [any_close existsb].
  - reflexivity.
  - unfold close_to at 1. rewrite levenshtein_distance_correct. cbn [bind].
    destruct (_ <=? 2); [reflexivity | exact IH].
Qed.

Lemma count_matched_spec (org_words search_words : list str) :
  forall matched_words,
    count_matched org_words search_words matched_words
    = Ok (matched_words + length (matched_tokens org_words search_words)).
Proof.
  unfold matched_tokens.
  induction org_words as [|w ws IH]; intros m; cbn [count_matched filter].
  - cbn [length]. rewrite Nat.add_0_r. reflexivity.
  - rewrite any_close_spec. cbn [bind].
    destruct (existsb _ search_words); rewrite IH; cbn [length]; f_equal; lia.
Qed.

Lemma fuzzy_match_counts (org_name search_text : str) :
  fuzzy_match org_name search_text =
  match split (lower org_name) with
  | [] => Raise ZeroDivisionError
  | _ => Ok (7 * length (split (lower org_name))
             <=? 10 * length (matched_tokens (split (lower org_name))
                                (split (lower search_text))))
  end.
Proof.
  unfold fuzzy_match. rewrite count_matched_spec. cbn [bind Nat.add].
  unfold ratio_at_least_07.
  destruct (split (lower org_name)); reflexivity.
Qed.

(** X4. [fuzzy_match] raises ZeroDivisionError when [org_name] has no
    whitespace-separated token and raises nothing otherwise. With a token,
    it accepts exactly when the tokens of [org_name] that are within two
    edits of some token of the text, counted with their repetitions, are at
    least seven tenths of all its tokens. *)
Theorem fuzzy_match_spec (org_name search_text : str) :
  let org_words := split (lower org_name) in
  let search_words := split (lower search_text) in
  fuzzy_match org_name search_text =
  match org_words with
  | [] => Raise ZeroDivisionError
  | _ => Ok (7 * length org_words
             <=? 10 * length (matched_tokens org_words search_words))
  end.
Proof. cbv zeta. apply fuzzy_match_counts. Qed.

Lemma close_to_refl (w : str) : close_to w w = true.
Proof.
  unfold close_to. rewrite levenshtein_distance_correct.
  unfold prefix_distance. rewrite recurrence_refl. reflexivity.
Qed.

Lemma filter_all {A} (f : A -> bool) (l : list A) :
  (forall x, In x l -> f x = true) -> filter f l = l.
Proof.
  induction l as [|x l IH]; intros H; cbn [filter]; [reflexivity|].
  rewrite (H x (or_introl eq_refl)), IH; [reflexivity|].
  intros y Hy. apply H. right. exact Hy.
Qed.

(** X5. Word order does not matter to [fuzzy_match]: when [org_name] has a
    token and each of its tokens is a token of the text, wherever it
    stands, the test accepts. *)
Theorem fuzzy_match_token_coverage (org_name search_text : str) :
  split (lower org_name) <> [] ->
  (forall word, In word (split (lower org_name)) ->
                In word (split (lower search_text))) ->
  fuzzy_match org_name search_text = Ok true.
Proof.
  intros Htokens Hcovered.
  rewrite fuzzy_match_counts.
  unfold matched_tokens. rewrite filter_all.
  - destruct (split (lower org_name)) as [|w ws]; [contradiction|].
    f_equal. apply Nat.leb_le. lia.
  - intros word Hword. apply existsb_exists. exists word.
    split; [apply Hcovered, Hword | apply close_to_refl].
Qed.

Lemma fuzzy_match_token_coverage_witness :
  split (lower (py "University of Oxford")) <> [] /\
  (forall word, In word (split (lower (py "University of Oxford"))) ->
                In word (split (lower (py "Press of Oxford University")))) /\
  fuzzy_match (py "University of Oxford") (py "Press of Oxford University")
  = Ok true.
Proof.
  assert (Htokens : split (lower (py "University of Oxford")) <> [])
    by (vm_compute; discriminate).
  assert (Hcovered :
    forall word, In word (split (lower (py "University of Oxford"))) ->
                 In word (split (lower (py "Press of Oxford University")))).
  { vm_compute. intuition. }
  split; [exact Htokens|]. split; [exact Hcovered|].
  apply (fuzzy_match_token_coverage (py "University of Oxford")
           (py "Press of Oxford University") Htokens Hcovered).
Defined.

(** ** The match decision, lines 76-77 and 97-100 *)

(** X6. The decision of lines 97-100 never raises, although [fuzzy_match]
    divides by zero on a name without tokens: such a name has no word token
    either, its normalized form is empty, and the second test answers
    before [fuzzy_match] is asked. *)
Theorem match_decision_never_raises (org_name search_text : str) :
  (exists accepts, match_decision org_name search_text = Ok accepts) /\
  (split (lower org_name) = [] ->
   fuzzy_match org_name search_text = Raise ZeroDivisionError /\
   match_decision org_name search_text = Ok true).
Proof.
  split; [apply match_decision_total|].
  intros Hsplit. split; [apply fuzzy_match_no_tokens, Hsplit|].
  unfold match_decision.
  rewrite (normalized_substring_no_words org_name search_text)
    by (apply split_nil_findall_nil, Hsplit).
  destruct (exact_substring _ _); reflexivity.
Qed.

Lemma match_decision_never_raises_witness :
  split (lower (py "  ")) = [] /\
  fuzzy_match (py "  ") (py "oxford university") = Raise ZeroDivisionError /\
  match_decision (py "  ") (py "oxford university") = Ok true.
Proof.
  split; [reflexivity|].
  apply (proj2 (match_decision_never_raises (py "  ") (py "oxford university"))).
  reflexivity.
Defined.

(** X7. The decision reads [org_name] through [org_name.lower()] only: two
    names that differ in case alone get the same answer on every text. *)
Theorem match_decision_ignores_case (org_name other_name search_text : str) :
  lower org_name = lower other_name ->
  match_decision org_name search_text = match_decision other_name search_text.
Proof.
  intros Hlower.
  unfold match_decision, exact_substring, normalized_substring,
    all_tokens_present, org_without_of_of, org_words_of, fuzzy_match.
  rewrite Hlower. reflexivity.
Qed.

Lemma match_decision_ignores_case_witness :
  lower (py "OXFORD University") = lower (py "Oxford UNIVERSITY") /\
  match_decision (py "OXFORD University") (py "the university in oxford")
  = match_decision (py "Oxford UNIVERSITY") (py "the university in oxford").
Proof.
  split; [reflexivity|].
  apply (match_decision_ignores_case (py "OXFORD University")
           (py "Oxford UNIVERSITY") (py "the university in oxford")).
  reflexivity.
Defined.

Lemma substring_trans (a b c : str) :
  substring a b -> substring b c -> substring a c.
Proof.
  intros [b1 [b2 ->]] [c1 [c2 ->]].
  exists (c1 ++ b1), (b2 ++ c2). rewrite <- !app_assoc. reflexivity.
Qed.

(** A run of [runs] is a piece of the text it is cut from. *)
Lemma runs_substring (keep : ascii -> bool) (s : str) :
  forall run r, In r (runs keep s run) -> substring r (run ++ s).
Proof.
  induction s as [|c s IH]; intros run r Hr; cbn [runs] in Hr.
  - destruct run as [|a run]; [destruct Hr|].
    destruct Hr as [<- | []]. exists [], []. rewrite !app_nil_r. reflexivity.
  - destruct (keep c).
    + apply IH in Hr. rewrite <- app_assoc in Hr. exact Hr.
    + destruct run as [|a run].
      * apply IH in Hr. destruct Hr as [before [after H]].
        cbn [app] in *. exists (c :: before), after. rewrite H. reflexivity.
      * destruct Hr as [<- | Hr].
        -- exists [], (c :: s). reflexivity.
        -- apply IH in Hr. destruct Hr as [before [after H]].
           cbn [app] in H. exists ((a :: run) ++ c :: before), after.
           rewrite H, <- app_assoc. reflexivity.
Qed.

(** X8. The first test is covered by the third: a text that holds the
    lowered name holds each of its word tokens, so whenever the
    exact-substring test accepts, the all-tokens test accepts too. *)
Theorem exact_substring_implies_all_tokens (org_name search_text : str) :
  exact_substring org_name search_text = true ->
  all_tokens_present org_name search_text = true.
Proof.
  unfold exact_substring, all_tokens_present, org_words_of, findall_words.
  intros Hexact. apply contains_spec in Hexact.
  apply forallb_forall. intros word Hword. apply contains_spec.
  apply (substring_trans word (lower org_name)); [|exact Hexact].
  apply (runs_substring is_word (lower org_name) [] word Hword).
Qed.

Lemma exact_substring_implies_all_tokens_witness :
  exact_substring (py "Oxford University") (py "oxford university press") = true /\
  all_tokens_present (py "Oxford University") (py "oxford university press")
  = true.
Proof.
  split; [reflexivity|].
  apply (exact_substring_implies_all_tokens (py "Oxford University")
           (py "oxford university press")).
  reflexivity.
Defined.

(** X9. An actor without display name is matched as if it were named
    None: line 95 formats the missing name as the word None, so a name that
    lowers to "none" is accepted for every such actor. *)
Theorem nameless_actor_matches_none (org_name : str) (a : actor) :
  lower org_name = py "none" ->
  actor_display_name a = None ->
  accepted org_name a = true.
Proof.
  intros Hname Hnameless.
  unfold accepted, match_decision.
  replace (exact_substring org_name (search_text_of a)) with true;
    [reflexivity|].
  symmetry. unfold exact_substring. rewrite Hname. apply contains_spec.
  unfold search_text_of, lower. rewrite Hnameless, map_app.
  exists [], (map lower_char (py " " ++ match actor_description a with
                                        | Some s => s
                                        | None => []
                                        end)).
  reflexivity.
Qed.

Lemma nameless_actor_matches_none_witness :
  let a :=
    {| actor_handle := py "anon.bsky.social";
       actor_display_name := None;
       actor_description := Some (py "Marine biology lab");
       actor_followers_count := None;
       actor_following_count := None;
       actor_posts_count := None |} in
  lower (py "NONE") = py "none" /\
  actor_display_name a = None /\
  accepted (py "NONE") a = true.
Proof.
  cbv zeta. split; [reflexivity|]. split; [reflexivity|].
  apply nameless_actor_matches_none; reflexivity.
Defined.

(** ** RateLimiter, lines 13-35 *)


Section RateLimitEdges.

Variable time : Type.
Variable of_int : Z -> time.
Variable add sub : time -> time -> time.
Variable ltb : time -> time -> bool.
Variables calls period : Z.

(** X11. With [calls] zero or negative the wrapped function is never
    called: from the empty log every invocation raises IndexError at
    [calls_made[0]] and leaves the log empty. *)
Theorem nonpositive_calls_always_raise (readings : list time)
    (current_time : time) :
  (calls <= 0)%Z ->
  invocations time of_int add sub ltb calls period readings [] = [] /\
  wrapper time of_int add sub ltb calls period current_time
    (invocations time of_int add sub ltb calls period readings [])
  = ([], Raise IndexError).
Proof.
  intros Hcalls.
  assert (Hstep : forall now,
            wrapper time of_int add sub ltb calls period now []
            = ([], Raise IndexError)).
  { intros now. unfold wrapper. cbn [filter length].
    destruct (Z.leb_spec calls (Z.of_nat 0)); [reflexivity | lia]. }
  assert (Hlog : invocations time of_int add sub ltb calls period readings []
                 = []).
  { induction readings as [|now later IH]; [reflexivity|].
    cbn [invocations]. rewrite Hstep. exact IH. }
  rewrite Hlog. split; [reflexivity | apply Hstep].
Qed.

End RateLimitEdges.

Lemma nonpositive_calls_always_raise_witness :
  (0 <= 0)%Z /\
  invocations Z (fun n => n) Z.add Z.sub Z.ltb 0 10 [1; 2; 3]%Z [] = [] /\
  wrapper Z (fun n => n) Z.add Z.sub Z.ltb 0 10 4%Z
    (invocations Z (fun n => n) Z.add Z.sub Z.ltb 0 10 [1; 2; 3]%Z [])
  = ([], Raise IndexError).
Proof.
  split; [lia|].
  apply (nonpositive_calls_always_raise Z (fun n => n) Z.add Z.sub Z.ltb 0 10).
  lia.
Defined.

Lemma filter_repeat {A} (f : A -> bool) (a : A) (n : nat) :
  filter f (repeat a n) = if f a then repeat a n else [].
Proof.
  induction n as [|n IH]; cbn [repeat filter].
  - destruct (f a); reflexivity.
  - rewrite IH. destruct (f a); reflexivity.
Qed.

(** A call at the instant of the [j] calls logged so far, with room left. *)
Lemma wrapper_seconds_room (calls period t : Z) (j : nat) :
  (0 < period)%Z -> (Z.of_nat j < calls)%Z ->
  wrapper_seconds calls period t (repeat t j) = (repeat t (S j), Ok None).
Proof.
  intros Hperiod Hroom. unfold wrapper_seconds, wrapper.
  rewrite filter_repeat. unfold recent. rewrite Z.sub_diag.
  destruct (Z.ltb_spec 0 period); [|lia].
  rewrite repeat_length.
  destruct (Z.leb_spec calls (Z.of_nat j)); [lia|].
  rewrite <- repeat_cons. reflexivity.
Qed.

(** A call at the instant of the [n] calls that fill the log: it sleeps a
    period and logs the instant read before the sleep. *)
Lemma wrapper_seconds_full (period t : Z) (n : nat) :
  (0 < period)%Z -> 0 < n ->
  wrapper_seconds (Z.of_nat n) period t (repeat t n)
  = (repeat t n, Ok (Some (t + period - t)%Z)).
Proof.
  intros Hperiod Hn. unfold wrapper_seconds, wrapper.
  rewrite filter_repeat. unfold recent. rewrite Z.sub_diag.
  destruct (Z.ltb_spec 0 period); [|lia].
  rewrite repeat_length, Z.leb_refl.
  destruct n as [|n]; [lia|]. cbn [repeat].
  rewrite <- repeat_cons.
  destruct (Z.ltb_spec 0 (t + period - t)); [reflexivity | lia].
Qed.

(** A call a period after the logged calls: they have all expired. *)
Lemma wrapper_seconds_expired (calls period t : Z) (n : nat) :
  (0 < calls)%Z ->
  wrapper_seconds calls period (t + period) (repeat t n)
  = ([(t + period)%Z], Ok None).
Proof.
  intros Hcalls. unfold wrapper_seconds, wrapper.
  rewrite filter_repeat. unfold recent.
  destruct (Z.ltb_spec (t + period - t) period); [lia|].
  cbn [length]. destruct (Z.leb_spec calls (Z.of_nat 0)); [lia | reflexivity].
Qed.

Lemma back_to_back_room (calls period t : Z) :
  (0 < period)%Z ->
  forall k j m,
    (Z.of_nat (j + k) <= calls)%Z ->
    back_to_back calls period (k + m) t (repeat t j)
    = repeat t k ++ back_to_back calls period m t (repeat t (j + k)).
Proof.
  intros Hperiod. induction k as [|k IH]; intros j m Hroom.
  - rewrite Nat.add_0_r. reflexivity.
  - cbn [Nat.add back_to_back].
    rewrite wrapper_seconds_room by lia.
    rewrite IH by lia. cbn [repeat app].
    rewrite Nat.add_succ_r. reflexivity.
Qed.

(** X12. The log holds the instants read before the sleeps, not the
    instants at which [func] starts. Of [2 * n + 1] calls made one right
    after the other with [calls = n], the first [n] start at once and the
    other [n + 1] all start one period later, at the same instant: one
    call more than [calls] in less than a period. *)
Theorem back_to_back_overshoots (n : nat) (period t : Z) :
  0 < n -> (0 < period)%Z ->
  back_to_back (Z.of_nat n) period (n + S n) t []
  = repeat t n ++ repeat (t + period)%Z (S n).
Proof.
  intros Hn Hperiod.
  pose proof (back_to_back_room (Z.of_nat n) period t Hperiod n 0 (S n))
    as Hfirst.
  cbn [repeat Nat.add] in Hfirst. rewrite Hfirst by lia.
  f_equal. cbn [back_to_back].
  rewrite wrapper_seconds_full by assumption.
  replace (t + (t + period - t))%Z with (t + period)%Z by lia.
  cbn [repeat]. f_equal.
  destruct n as [|n]; [lia|]. cbn [back_to_back].
  rewrite wrapper_seconds_expired by lia.
  cbn [repeat]. f_equal.
  pose proof (back_to_back_room (Z.of_nat (S n)) period (t + period) Hperiod
                n 1 0) as Hrest.
  rewrite Nat.add_0_r in Hrest. cbn [repeat] in Hrest.
  rewrite Hrest by lia. cbn [back_to_back]. apply app_nil_r.
Qed.

Lemma back_to_back_overshoots_witness :
  0 < 2 /\ (0 < 10)%Z /\
  back_to_back 2 10 5 0%Z [] = [0; 0; 10; 10; 10]%Z.
Proof.
  split; [lia|]. split; [lia|].
  apply (back_to_back_overshoots 2 10 0%Z); lia.
Defined.

(** ** PaginatedSearch, lines 72-139 *)

(** Pages with a next cursor below the bound, then a page that ends the
    search: the loop asks for each in turn, from any state. *)
Lemma search_loop_pages (max_pages : nat) (org_name org_type search_term : str)
    (last_actors : list actor) (last_next : option str)
    (rest : list response) :
  forall pages cursor page_count matched_accounts w,
    Forall (fun p => snd p <> []) pages ->
    (pages = [] \/ page_count + length pages < max_pages) ->
    (truthy last_next = false \/ max_pages <= page_count + length pages + 1) ->
    search_loop max_pages org_name org_type search_term
      (map page_of pages ++ Page last_actors last_next :: rest) cursor
      page_count matched_accounts w =
    Some (Ok (matched_accounts
              ++ pages_matches org_name org_type (clock w)
                   (map fst pages ++ [last_actors]) (ticks w)),
          rest,
          {| clock := clock w;
             ticks := ticks w
                      + length (pages_matches org_name org_type (clock w)
                                  (map fst pages ++ [last_actors]) (ticks w));
             trace := trace w
                      ++ paging_trace search_term cursor (map snd pages) |}).
Proof.
  induction pages as [|[actors next] pages IH];
    intros cursor page_count matched [clk tk tr] Hnexts Hbelow Hstop.
  - cbn [map app search_loop pages_matches paging_trace length].
    unfold try_page, mbind at 1, emit. unfold mbind.
    rewrite evaluate_page_spec. cbn [clock ticks trace].
    rewrite !app_nil_r, Nat.add_0_r in *.
    destruct Hstop as [Hstop | Hstop].
    + rewrite Hstop. reflexivity.
    + destruct (negb (truthy last_next)); [reflexivity|].
      destruct (Nat.leb_spec max_pages (page_count + 1)); [reflexivity | lia].
  - inversion Hnexts as [|p ps Hnext Hnexts']; subst. cbn [snd] in Hnext.
    destruct Hbelow as [Hbelow | Hbelow]; [discriminate Hbelow|].
    cbn [length] in *.
    cbn [map app search_loop fst snd].
    change (page_of (actors, next)) with (Page actors (Some next)).
    unfold try_page, mbind at 1, emit. unfold mbind.
    rewrite evaluate_page_spec. cbn [clock ticks trace].
    destruct next as [|c next]; [contradiction|]. cbn [truthy negb].
    destruct (Nat.leb_spec max_pages (page_count + 1)); [lia|].
    unfold emit, ret. cbn [clock ticks trace].
    rewrite IH; [| exact Hnexts' | right; lia | destruct Hstop; [left; assumption | right; lia]].
    cbn [clock ticks trace pages_matches paging_trace].
    rewrite <- !app_assoc, length_app, Nat.add_assoc. reflexivity.
Qed.

(** X13. A search that meets no error evaluates the pages until the first
    one without next cursor or until [max_pages] pages, whichever comes
    first: it returns the matches of these pages in their order, sends one
    request a page, each with the cursor of the page before and a second
    after it, and leaves the other pages with the remote. *)
Theorem search_pages_until_stop (max_pages : nat) (org_name org_type : str)
    (pages : list (list actor * str)) (last_actors : list actor)
    (last_next : option str) (rest : list response) (w : world) :
  Forall (fun p => snd p <> []) pages ->
  (pages = [] \/ length pages < max_pages) ->
  (truthy last_next = false \/ max_pages <= length pages + 1) ->
  search_organization_bounded max_pages org_name org_type
    (map page_of pages ++ Page last_actors last_next :: rest) w =
  Some (Ok (pages_matches org_name org_type (clock w)
              (map fst pages ++ [last_actors]) (ticks w)),
        rest,
        {| clock := clock w;
           ticks := ticks w
                    + length (pages_matches org_name org_type (clock w)
                                (map fst pages ++ [last_actors]) (ticks w));
           trace := trace w
                    ++ paging_trace (search_term_of org_name) None
                         (map snd pages) |}).
Proof.
  intros Hnexts Hbelow Hstop. unfold search_organization_bounded.
  rewrite search_loop_pages; [reflexivity | exact Hnexts | exact Hbelow
                             | exact Hstop].
Qed.

Lemma search_pages_until_stop_witness :
  let oxford :=
    {| actor_handle := py "ox.ac.uk";
       actor_display_name := Some (py "Oxford University");
       actor_description := None;
       actor_followers_count := None;
       actor_following_count := None;
       actor_posts_count := None |} in
  let press :=
    {| actor_handle := py "oup.com";
       actor_display_name := Some (py "Oxford University Press");
       actor_description := Some (py "Books");
       actor_followers_count := Some 12%Z;
       actor_following_count := None;
       actor_posts_count := None |} in
  let w :=
    {| clock := fun _ => {| unix_time := 1700000000; today := py "2023-11-14" |};
       ticks := 0;
       trace := [] |} in
  let pages := [([oxford], py "page-2")] in
  Forall (fun p : list actor * str => snd p <> []) pages /\
  (pages = [] \/ length pages < 2) /\
  (truthy (Some (py "page-3")) = false \/ 2 <= length pages + 1) /\
  search_organization_bounded 2 (py "Oxford") (py "university")
    (map page_of pages ++ Page [press] (Some (py "page-3")) :: [Page [] None])
    w =
  Some (Ok (pages_matches (py "Oxford") (py "university") (clock w)
              (map fst pages ++ [[press]]) (ticks w)),
        [Page [] None],
        {| clock := clock w;
           ticks := ticks w
                    + length (pages_matches (py "Oxford") (py "university")
                                (clock w) (map fst pages ++ [[press]])
                                (ticks w));
           trace := trace w
                    ++ paging_trace (search_term_of (py "Oxford")) None
                         (map snd pages) |}).
Proof.
  cbv zeta.
  assert (Hnexts : Forall (fun p : list actor * str => snd p <> [])
                     [([{| actor_handle := py "ox.ac.uk";
                           actor_display_name := Some (py "Oxford University");
                           actor_description := None;
                           actor_followers_count := None;
                           actor_following_count := None;
                           actor_posts_count := None |}], py "page-2")])
    by (constructor; [discriminate | constructor]).
  split; [exact Hnexts|].
  split; [right; cbn [length]; lia|].
  split; [right; cbn [length]; lia|].
  apply (search_pages_until_stop 2 (py "Oxford") (py "university")).
  - exact Hnexts.
  - right. cbn [length]. lia.
  - right. cbn [length]. lia.
Defined.

(** The answers after which the loop goes on leave it in some state from
    which it reads what follows. *)
Lemma search_loop_prefix (max_pages : nat) (org_name org_type search_term : str) :
  forall answers cursor page_count matched_accounts w,
    keeps_going max_pages answers page_count = true ->
    exists cursor' page_count' matched_accounts' w',
      forall script,
        search_loop max_pages org_name org_type search_term
          (answers ++ script) cursor page_count matched_accounts w =
        search_loop max_pages org_name org_type search_term script cursor'
          page_count' matched_accounts' w'.
Proof.
  induction answers as [|r later IH]; intros cursor page_count matched w Hgo.
  - exists cursor, page_count, matched, w. reflexivity.
  - cbn [keeps_going] in Hgo. destruct r as [actors next|e].
    + apply andb_true_iff in Hgo. destruct Hgo as [Hgo Hlater].
      apply andb_true_iff in Hgo. destruct Hgo as [Hnext Hbound].
      apply Nat.ltb_lt in Hbound.
      destruct (IH next (page_count + 1)
                  (matched ++ page_matches org_name org_type (clock w) actors
                                (ticks w))
                  {| clock := clock w;
                     ticks := ticks w
                              + length (page_matches org_name org_type (clock w)
                                          actors (ticks w));
                     trace := (trace w
                               ++ [Requested
                                     {| term := search_term; limit := 100;
                                        cursor_param :=
                                          if truthy cursor then cursor
                                          else None |}])
                              ++ [Slept 1] |}
                  Hlater)
        as [cursor' [page_count' [matched' [w' Hrest]]]].
      exists cursor', page_count', matched', w'. intros script.
      rewrite <- Hrest. cbn [app search_loop].
      unfold try_page, mbind at 1, emit. unfold mbind.
      rewrite evaluate_page_spec, Hnext. cbn [negb clock ticks trace].
      destruct (Nat.leb_spec max_pages (page_count + 1)); [lia|].
      reflexivity.
    + apply andb_true_iff in Hgo. destruct Hgo as [Hretried Hlater].
      destruct e as [| | |message reset|message]; try discriminate Hretried.
      assert (Hmessage : rate_limited message = true)
        by (destruct reset; [exact Hretried | exact Hretried | discriminate]).
      assert (Hreset : exists reset_time, reset_time_of reset = Ok reset_time)
        by (destruct reset; [eexists; reflexivity | eexists; reflexivity
                            | discriminate Hretried]).
      destruct Hreset as [reset_time Hreset].
      destruct (IH cursor page_count matched
                  {| clock := clock w;
                     ticks := S (ticks w);
                     trace := trace w
                              ++ [Requested
                                    {| term := search_term; limit := 100;
                                       cursor_param :=
                                         if truthy cursor then cursor
                                         else None |};
                                  Slept (Z.max 0 (reset_time
                                                  - unix_time
                                                      (clock w (ticks w)))
                                         + 1)] |}
                  Hlater)
        as [cursor' [page_count' [matched' [w' Hrest]]]].
      exists cursor', page_count', matched', w'. intros script.
      rewrite <- Hrest. cbn [app].
      apply (search_loop_retry _ _ _ _ _ _ _ _ _ _ _ _ Hmessage Hreset).
Qed.

(** X14. A rate-limit error whose reset hint [int] cannot read is not
    retried: line 127 raises ValueError inside the handler, the loop ends
    and the search returns the empty list, whatever the pages before have
    matched. *)
Theorem unreadable_reset_hint_returns_nothing (max_pages : nat)
    (org_name org_type message : str) (answers rest : list response)
    (w : world) :
  keeps_going max_pages answers 0 = true ->
  rate_limited message = true ->
  exists w',
    search_loop max_pages org_name org_type (search_term_of org_name)
      (answers ++ Fails (AtProtocolError message header_malformed) :: rest)
      None 0 [] w = Some (Raise ValueError, rest, w') /\
    search_organization_bounded max_pages org_name org_type
      (answers ++ Fails (AtProtocolError message header_malformed) :: rest) w
    = Some (Ok [], rest, w').
Proof.
  intros Hgo Hmessage.
  destruct (search_loop_prefix max_pages org_name org_type
              (search_term_of org_name) answers None 0 [] w Hgo)
    as [cursor' [page_count' [matched' [w1 Hprefix]]]].
  assert (Hloop : exists w',
    search_loop max_pages org_name org_type (search_term_of org_name)
      (answers ++ Fails (AtProtocolError message header_malformed) :: rest)
      None 0 [] w = Some (Raise ValueError, rest, w')).
  { rewrite Hprefix. cbn [search_loop].
    unfold try_page, mbind, emit, raise, on_error. rewrite Hmessage.
    unfold mbind, lift. cbn [reset_time_of]. eexists. reflexivity. }
  destruct Hloop as [w' Hloop]. exists w'. split; [exact Hloop|].
  unfold search_organization_bounded. rewrite Hloop. reflexivity.
Qed.

Lemma unreadable_reset_hint_returns_nothing_witness :
  let oxford :=
    {| actor_handle := py "ox.ac.uk";
       actor_display_name := Some (py "Oxford University");
       actor_description := None;
       actor_followers_count := None;
       actor_following_count := None;
       actor_posts_count := None |} in
  let w :=
    {| clock := fun _ => {| unix_time := 1700000000; today := py "2023-11-14" |};
       ticks := 0;
       trace := [] |} in
  let answers := [Page [oxford] (Some (py "page-2"))] in
  let e := AtProtocolError (py "RateLimitExceeded") header_malformed in
  keeps_going 2 answers 0 = true /\
  rate_limited (py "RateLimitExceeded") = true /\
  exists w',
    search_loop 2 (py "Oxford") (py "university") (search_term_of (py "Oxford"))
      (answers ++ Fails e :: []) None 0 [] w = Some (Raise ValueError, [], w') /\
    search_organization_bounded 2 (py "Oxford") (py "university")
      (answers ++ Fails e :: []) w = Some (Ok [], [], w').
Proof.
  cbv zeta. split; [reflexivity|]. split; [reflexivity|].
  apply (unreadable_reset_hint_returns_nothing 2 (py "Oxford")
           (py "university") (py "RateLimitExceeded"));
    reflexivity.
Defined.





Lemma paced_more (search_term : str) (p : params) (seconds : Z)
    (events : list event) :
  term p = search_term -> limit p = 100%Z -> (1 <= seconds)%Z ->
  paced search_term events ->
  paced search_term (Requested p :: Slept seconds :: events).
Proof. intros Hterm Hlimit Hseconds Hevents. cbn [paced]. auto. Qed.

(** What the loop adds to the trace, however it ends. *)
Lemma search_loop_paced (max_pages : nat) (org_name org_type search_term : str) :
  forall script cursor page_count matched_accounts w outcome rest w',
    search_loop max_pages org_name org_type search_term script cursor
      page_count matched_accounts w = Some (outcome, rest, w') ->
    exists events,
      trace w' = trace w ++ events /\ paced search_term events.
Proof.
  induction script as [|r script IH];
    intros cursor page_count matched [clk tk tr] outcome rest w' Hloop.
  - discriminate Hloop.
  - cbn [search_loop] in Hloop.
    set (p := {| term := search_term; limit := 100;
                 cursor_param := if truthy cursor then cursor else None |})
      in *.
    assert (Hrequest : paced search_term [Requested p])
      by (cbn [paced]; auto).
    destruct r as [actors next|e].
    + unfold try_page, mbind at 1, emit in Hloop. unfold mbind in Hloop.
      rewrite evaluate_page_spec in Hloop. cbn [clock ticks trace] in *.
      destruct (negb (truthy next)).
      * unfold ret in Hloop. injection Hloop as _ _ <-.
        cbn [trace]. eexists. split; [reflexivity | exact Hrequest].
      * destruct (max_pages <=? page_count + 1).
        -- unfold ret in Hloop. injection Hloop as _ _ <-.
           cbn [trace]. eexists. split; [reflexivity | exact Hrequest].
        -- unfold emit, ret in Hloop. cbn [clock ticks trace] in Hloop.
           apply IH in Hloop. cbn [trace] in Hloop.
           destruct Hloop as [events [Htrace Hevents]].
           exists (Requested p :: Slept 1 :: events). split.
           ++ rewrite Htrace, <- !app_assoc. reflexivity.
           ++ apply paced_more; [reflexivity | reflexivity | lia | exact Hevents].
    + unfold try_page, mbind, emit, raise, on_error in Hloop.
      cbn [clock ticks trace] in Hloop.
      assert (Hraised : forall e0 : exn,
        Some (@Raise (list account_info) e0, script,
              {| clock := clk; ticks := tk; trace := tr ++ [Requested p] |})
        = Some (outcome, rest, w') ->
        exists events,
          trace w' = tr ++ events /\ paced search_term events).
      { intros e0 H. injection H as _ _ <-. cbn [trace].
        eexists. split; [reflexivity | exact Hrequest]. }
      destruct e as [| | |message reset|message];
        try (apply (Hraised _ Hloop)).
      destruct (rate_limited message); [|apply (Hraised _ Hloop)].
      unfold mbind, lift, now, emit in Hloop.
      destruct (reset_time_of reset) as [reset_time|];
        [|apply (Hraised _ Hloop)].
      cbn [clock ticks trace] in Hloop.
      apply IH in Hloop. cbn [trace] in Hloop.
      destruct Hloop as [events [Htrace Hevents]].
      exists (Requested p
              :: Slept (Z.max 0 (reset_time - unix_time (clk tk)) + 1)
              :: events).
      split.
      * rewrite Htrace, <- !app_assoc. reflexivity.
      * apply paced_more; [reflexivity | reflexivity | lia | exact Hevents].
Qed.

(** X16. Whatever the remote answers, a search that returns has sent its
    requests one at a time, each for the same term, the first word token of
    the lowered name (the name itself when it has none), with the limit 100,
    and between a request and the next one it has slept once, for a second
    at least: the second of line 123 after a page, or the wait of line 130
    after a rate-limit error. [w] is the world in which the body is entered:
    the limiter of line 72 does its own sleep before that, so before the
    first request. *)
Theorem search_requests_paced (max_pages : nat) (org_name org_type : str)
    (script : list response) (w : world) (outcome : result (list account_info))
    (rest : list response) (w' : world) :
  search_organization_bounded max_pages org_name org_type script w
  = Some (outcome, rest, w') ->
  exists events,
    trace w' = trace w ++ events /\
    paced (search_term_of org_name) events.
Proof.
  unfold search_organization_bounded. intros Hsearch.
  destruct (search_loop _ _ _ _ _ _ _ _ _) as [[[[found|e] rest0] w0]|] eqn:Hloop;
    [| |discriminate Hsearch];
    injection Hsearch as _ _ <-;
    apply (search_loop_paced _ _ _ _ _ _ _ _ _ _ _ _ Hloop).
Qed.

Lemma search_requests_paced_witness :
  let w :=
    {| clock := fun _ => {| unix_time := 1700000000; today := py "2023-11-14" |};
       ticks := 0;
       trace := [] |} in
  let script :=
    [Fails (AtProtocolError (py "RateLimitExceeded") (header_int 1600000000));
     Page [] (Some (py "page-2")); Page [] None] in
  let w' :=
    {| clock := clock w; ticks := 1;
       trace := [Requested (request (py "University of Oxford") None);
                 Slept 1;
                 Requested (request (py "University of Oxford") None);
                 Slept 1;
                 Requested (request (py "University of Oxford")
                              (Some (py "page-2")))] |} in
  search_organization_bounded 3 (py "University of Oxford") (py "university")
    script w = Some (Ok [], [], w') /\
  search_term_of (py "University of Oxford") = py "university" /\
  exists events,
    trace w' = trace w ++ events /\
    paced (search_term_of (py "University of Oxford")) events.
Proof.
  cbv zeta. split; [reflexivity|]. split; [reflexivity|].
  apply (search_requests_paced 3 (py "University of Oxford")
           (py "university")
           [Fails (AtProtocolError (py "RateLimitExceeded")
                     (header_int 1600000000));
            Page [] (Some (py "page-2")); Page [] None]
           {| clock := fun _ => {| unix_time := 1700000000;
                                   today := py "2023-11-14" |};
              ticks := 0; trace := [] |}
           (Ok []) []).
  reflexivity.
Defined.

(** ** The batch, lines 173-284 *)

Lemma str_eqb_refl (a : str) : str_eqb a a = true.
Proof. unfold str_eqb. destruct (list_eq_dec ascii_dec a a); congruence. Qed.

Lemma str_eqb_eq (a b : str) : str_eqb a b = true <-> a = b.
Proof.
  unfold str_eqb. destruct (list_eq_dec ascii_dec a b); split; congruence.
Qed.

Lemma read_newest (path : str) (rows : list account_info)
    (fs : list (str * list account_info)) :
  read path ((path, rows) :: fs) = Some rows.
Proof. cbn [read]. rewrite str_eqb_refl. reflexivity. Qed.

Section BatchProperties.

Variable S : Type.
Variable search : str -> str -> S -> option (list account_info * S).
Variable date_now : S -> str * S.
Variable sleep : Z -> S -> S.
Variable h : host.
Variable output_dir : str.

(** X17. With [GITHUB_ENV] set no search result reaches its CSV file. The
    file of the environment is closed when the [with] block of lines 216-217
    ends, the next write to it (line 226 or 242) raises ValueError, and the
    handler of line 246 writes the output file anew: whatever the search has
    found, the file ends as one ERROR row whose display name is the message
    of the closed file. The batch goes on after its sleep. *)
Theorem github_env_set_leaves_error_row (org : row) (org_name org_type : str)
    (s s1 : S) (results : list account_info) (d : disk) :
  truthy (github_env h) = true ->
  (forall path, open_error h path = None) ->
  lookup (py "organization_name") org = Some org_name ->
  lookup (py "type") org = Some org_type ->
  search org_name org_type s = Some (results, s1) ->
  exists date s2 d',
    process S search date_now sleep h output_dir org s d
    = Some (Done tt, sleep 10 s2, d') /\
    read (output_file output_dir org_name) (files d')
    = Some [error_row org_name org_type ClosedFile date] /\
    str_of_error ClosedFile = py "I/O operation on closed file." /\
    env_headers d' = env_headers d ++ [org_name].
Proof.
  intros Henv Hopen Hname Htype Hsearch.
  unfold process, write_results, write_error.
  rewrite Hname, Htype, Hsearch, Hopen, Henv.
  destruct (github_env h) as [env_path|]; [|discriminate Henv].
  rewrite ?Hopen.
  destruct results as [|first later].
  - destruct (date_now s1) as [date0 s2] eqn:Hdate0.
    rewrite ?Hopen.
    destruct (date_now s2) as [date s3] eqn:Hdate.
    exists date, s3. eexists. split; [reflexivity|].
    cbn [files write env_headers]. rewrite read_newest. repeat split.
  - cbn [write_rows]. rewrite ?Hopen.
    destruct (date_now s1) as [date s2] eqn:Hdate.
    exists date, s2. eexists. split; [reflexivity|].
    cbn [files write env_headers]. rewrite read_newest. repeat split.
Qed.

(** X18. Without [GITHUB_ENV] an organization's file holds the accounts the
    search returned, in their order, and a single NO_MATCH_FOUND row when it
    returned none; the file of the environment is not written. *)
Theorem github_env_unset_writes_results (org : row) (org_name org_type : str)
    (s s1 : S) (results : list account_info) (d : disk) :
  truthy (github_env h) = false ->
  open_error h (output_file output_dir org_name) = None ->
  lookup (py "organization_name") org = Some org_name ->
  lookup (py "type") org = Some org_type ->
  search org_name org_type s = Some (results, s1) ->
  exists s2 d',
    process S search date_now sleep h output_dir org s d
    = Some (Done tt, sleep 10 s2, d') /\
    read (output_file output_dir org_name) (files d')
    = Some (match results with
            | [] => [no_match_row org_name org_type (fst (date_now s1))]
            | _ => results
            end) /\
    env_headers d' = env_headers d.
Proof.
  intros Henv Hopen Hname Htype Hsearch.
  assert (Hrows : forall results written,
            write_rows false results written = (written ++ results, None)).
  { induction results0 as [|r rs IH]; intros written; cbn [write_rows].
    - rewrite app_nil_r. reflexivity.
    - rewrite IH, <- app_assoc. reflexivity. }
  unfold process, write_results.
  rewrite Hname, Htype, Hsearch, Hopen, Henv.
  destruct results as [|first later].
  - destruct (date_now s1) as [date s2] eqn:Hdate.
    exists s2. eexists. split; [reflexivity|].
    cbn [files env_headers fst]. rewrite read_newest. split; reflexivity.
  - rewrite Hrows. exists s1. eexists. split; [reflexivity|].
    cbn [files env_headers app]. rewrite read_newest. split; reflexivity.
Qed.

Lemma search_from_csv_app (before after : list row) :
  forall s d,
    search_from_csv S search date_now sleep h output_dir (before ++ after) s d
    = match search_from_csv S search date_now sleep h output_dir before s d with
      | Some (Done _, s1, d1) =>
          search_from_csv S search date_now sleep h output_dir after s1 d1
      | other => other
      end.
Proof.
  induction before as [|org before IH]; intros s d; cbn [app search_from_csv].
  - reflexivity.
  - destruct (process S search date_now sleep h output_dir org s d)
      as [[[[[]|e] s1] d1]|]; [apply IH | reflexivity | reflexivity].
Qed.

(** X19. A row without the key [organization_name] or [type] ends the
    batch: the KeyError of line 190 or 191 is raised outside the inner
    [try], so the rows after it are neither searched nor written, while the
    files of the rows before it stay. *)
Theorem missing_column_ends_batch (before after : list row) (bad : row)
    (s s1 : S) (d d1 : disk) :
  search_from_csv S search date_now sleep h output_dir before s d
  = Some (Done tt, s1, d1) ->
  lookup (py "organization_name") bad = None \/
  lookup (py "type") bad = None ->
  exists key,
    search_from_csv S search date_now sleep h output_dir
      (before ++ bad :: after) s d = Some (Failed (KeyError key), s1, d1).
Proof.
  intros Hbefore Hmissing.
  rewrite search_from_csv_app, Hbefore. cbn [search_from_csv]. unfold process.
  destruct (lookup (py "organization_name") bad) as [org_name|].
  - destruct Hmissing as [Hmissing | Hmissing]; [discriminate Hmissing|].
    rewrite Hmissing. eexists. reflexivity.
  - eexists. reflexivity.
Qed.

(** X20. An output file that cannot be opened ends the batch as well: the
    handler of line 246 opens the same path at line 250 and the OSError it
    raises is not caught by the loop. The search of that organization has
    been made and nothing is written for it or for the rows after it. *)
Theorem unwritable_file_ends_batch (org : row) (after : list row)
    (org_name org_type message : str) (s s1 : S)
    (results : list account_info) (d : disk) :
  lookup (py "organization_name") org = Some org_name ->
  lookup (py "type") org = Some org_type ->
  search org_name org_type s = Some (results, s1) ->
  open_error h (output_file output_dir org_name) = Some message ->
  search_from_csv S search date_now sleep h output_dir (org :: after) s d
  = Some (Failed (OSError message), s1, d).
Proof.
  intros Hname Htype Hsearch Hopen.
  cbn [search_from_csv]. unfold process, write_results, write_error.
  rewrite Hname, Htype, Hsearch, Hopen. reflexivity.
Qed.

End BatchProperties.




Section BatchFiles.

Variable S : Type.
Variable search : str -> str -> S -> option (list account_info * S).
Variable date_now : S -> str * S.
Variable sleep : Z -> S -> S.
Variable h : host.
Variable output_dir : str.





End BatchFiles.

Lemma github_env_set_leaves_error_row_witness :
  truthy (github_env ci_host) = true /\
  (forall path, open_error ci_host path = None) /\
  accepted (py "Oxford") oxford_actor = true /\
  exists date s2 d',
    process remote_world search_in date_now_in sleep_in ci_host (py "out")
      oxford_row ([Page [oxford_actor] None], sample_world) empty_disk
    = Some (Done tt, sleep_in 10 s2, d') /\
    read (output_file (py "out") (py "Oxford")) (files d')
    = Some [error_row (py "Oxford") (py "university") ClosedFile date] /\
    str_of_error ClosedFile = py "I/O operation on closed file." /\
    env_headers d' = env_headers empty_disk ++ [py "Oxford"].
Proof.
  split; [reflexivity|]. split; [reflexivity|]. split; [reflexivity|].
  eapply (github_env_set_leaves_error_row remote_world search_in date_now_in
            sleep_in ci_host (py "out") oxford_row (py "Oxford")
            (py "university")); reflexivity.
Defined.

Lemma github_env_unset_writes_results_witness :
  truthy (github_env desk_host) = false /\
  exists s2 d',
    process remote_world search_in date_now_in sleep_in desk_host (py "out")
      oxford_row ([Page [oxford_actor] None], sample_world) empty_disk
    = Some (Done tt, sleep_in 10 s2, d') /\
    read (output_file (py "out") (py "Oxford")) (files d')
    = Some (match page_matches (py "Oxford") (py "university")
                    (clock sample_world) [oxford_actor] 0 with
            | [] => [no_match_row (py "Oxford") (py "university")
                       (fst (date_now_in
                               ([], {| clock := clock sample_world;
                                       ticks := 1;
                                       trace := [Requested
                                                   (request (py "Oxford")
                                                      None)] |})))]
            | _ => page_matches (py "Oxford") (py "university")
                     (clock sample_world) [oxford_actor] 0
            end) /\
    env_headers d' = env_headers empty_disk.
Proof.
  split; [reflexivity|].
  apply (github_env_unset_writes_results remote_world search_in date_now_in
           sleep_in desk_host (py "out") oxford_row (py "Oxford")
           (py "university") ([Page [oxford_actor] None], sample_world)
           ([], {| clock := clock sample_world; ticks := 1;
                   trace := [Requested (request (py "Oxford") None)] |})
           (page_matches (py "Oxford") (py "university") (clock sample_world)
              [oxford_actor] 0));
    reflexivity.
Defined.

Lemma missing_column_ends_batch_witness :
  lookup (py "type") [(py "organization_name", py "Acme Corp")] = None /\
  exists key,
    search_from_csv remote_world search_in date_now_in sleep_in desk_host
      (py "out")
      ([] ++ [(py "organization_name", py "Acme Corp")] :: [oxford_row])
      ([Page [oxford_actor] None], sample_world) empty_disk
    = Some (Failed (KeyError key),
            ([Page [oxford_actor] None], sample_world), empty_disk).
Proof.
  split; [reflexivity|].
  apply (missing_column_ends_batch remote_world search_in date_now_in sleep_in
           desk_host (py "out") []).
  - reflexivity.
  - right. reflexivity.
Defined.

Lemma unwritable_file_ends_batch_witness :
  open_error full_host (output_file (py "out") (py "Oxford"))
  = Some (py "No space left on device") /\
  search_from_csv remote_world search_in date_now_in sleep_in full_host
    (py "out") (oxford_row :: [acme_row])
    ([Page [oxford_actor] None; Page [] None], sample_world) empty_disk
  = Some (Failed (OSError (py "No space left on device")),
          ([Page [] None],
           {| clock := clock sample_world; ticks := 1;
              trace := [Requested (request (py "Oxford") None)] |}),
          empty_disk).
Proof.
  split; [reflexivity|].
  apply (unwritable_file_ends_batch remote_world search_in date_now_in sleep_in
           full_host (py "out") oxford_row [acme_row] (py "Oxford")
           (py "university") (py "No space left on device")
           ([Page [oxford_actor] None; Page [] None], sample_world)
           ([Page [] None],
            {| clock := clock sample_world; ticks := 1;
               trace := [Requested (request (py "Oxford") None)] |})
           (page_matches (py "Oxford") (py "university") (clock sample_world)
              [oxford_actor] 0));
    reflexivity.
Defined.


Lemma write_rows_unset (results written : list account_info) :
  write_rows false results written = (written ++ results, None).
Proof.
  revert written. induction results as [|r rs IH]; intros written;
    cbn [write_rows].
  - rewrite app_nil_r. reflexivity.
  - rewrite IH, <- app_assoc. reflexivity.
Qed.

Section BatchCollision.

Variable S : Type.
Variable search : str -> str -> S -> option (list account_info * S).
Variable date_now : S -> str * S.
Variable sleep : Z -> S -> S.
Variable h : host.
Variable output_dir : str.

(** X22. Two organizations whose names differ only by blanks against
    underscores share one output file (line 198 replaces the blanks): the
    second pass opens the file anew and the accounts found for the first
    organization are lost. *)
Theorem later_organization_overwrites (first second : row)
    (name1 type1 name2 type2 : str) (s s1 s2 : S)
    (found1 found2 : list account_info) (d : disk) :
  replace_spaces name1 = replace_spaces name2 ->
  truthy (github_env h) = false ->
  open_error h (output_file output_dir name2) = None ->
  lookup (py "organization_name") first = Some name1 /\
  lookup (py "type") first = Some type1 ->
  lookup (py "organization_name") second = Some name2 /\
  lookup (py "type") second = Some type2 ->
  search name1 type1 s = Some (found1, s1) /\ found1 <> [] ->
  search name2 type2 (sleep 10 s1) = Some (found2, s2) /\ found2 <> [] ->
  exists d',
    search_from_csv S search date_now sleep h output_dir [first; second] s d
    = Some (Done tt, sleep 10 s2, d') /\
    output_file output_dir name1 = output_file output_dir name2 /\
    read (output_file output_dir name1) (files d') = Some found2.
Proof.
  intros Hsame Henv Hopen [Hname1 Htype1] [Hname2 Htype2] [Hsearch1 Hfound1]
    [Hsearch2 Hfound2].
  assert (Hpath : output_file output_dir name1 = output_file output_dir name2)
    by (unfold output_file; rewrite Hsame; reflexivity).
  cbn [search_from_csv]. unfold process, write_results.
  rewrite Hname1, Htype1, Hsearch1, Hpath, Hopen, Henv.
  destruct found1 as [|a1 found1]; [contradiction|].
  rewrite write_rows_unset.
  rewrite Hname2, Htype2, Hsearch2, Hopen.
  destruct found2 as [|a2 found2]; [contradiction|].
  rewrite write_rows_unset.
  eexists. split; [reflexivity|]. split; [reflexivity|].
  cbn [files app]. apply read_newest.
Qed.

End BatchCollision.

Lemma later_organization_overwrites_witness :
  let first :=
    [(py "organization_name", py "Oxford University");
     (py "type", py "university")] in
  let second :=
    [(py "organization_name", py "Oxford_University");
     (py "type", py "press")] in
  let s := ([Page [oxford_actor] None; Page [underscore_actor] None], sample_world) in
  replace_spaces (py "Oxford University")
  = replace_spaces (py "Oxford_University") /\
  exists d',
    search_from_csv remote_world search_in date_now_in sleep_in desk_host
      (py "out") [first; second] s empty_disk
    = Some (Done tt,
            sleep_in 10
              ([], {| clock := clock sample_world; ticks := 2;
                      trace := [Requested (request (py "Oxford University")
                                             None);
                                Slept 10;
                                Requested (request (py "Oxford_University")
                                             None)] |}),
            d') /\
    output_file (py "out") (py "Oxford University")
    = output_file (py "out") (py "Oxford_University") /\
    read (output_file (py "out") (py "Oxford University")) (files d')
    = Some (page_matches (py "Oxford_University") (py "press")
              (clock sample_world) [underscore_actor] 1).
Proof.
  cbv zeta. split; [reflexivity|].
  apply (later_organization_overwrites remote_world search_in date_now_in
           sleep_in desk_host (py "out") _ _
           (py "Oxford University") (py "university")
           (py "Oxford_University") (py "press")
           ([Page [oxford_actor] None; Page [underscore_actor] None], sample_world)
           ([Page [underscore_actor] None],
            {| clock := clock sample_world; ticks := 1;
               trace := [Requested (request (py "Oxford University") None)] |})
           ([], {| clock := clock sample_world; ticks := 2;
                   trace := [Requested (request (py "Oxford University") None);
                             Slept 10;
                             Requested (request (py "Oxford_University")
                                          None)] |})
           (page_matches (py "Oxford University") (py "university")
              (clock sample_world) [oxford_actor] 0)
           (page_matches (py "Oxford_University") (py "press")
              (clock sample_world) [underscore_actor] 1)
           empty_disk).
  - reflexivity.
  - reflexivity.
  - reflexivity.
  - split; reflexivity.
  - split; reflexivity.
  - split; [reflexivity | vm_compute; discriminate].
  - split; [reflexivity | vm_compute; discriminate].
Defined.

(** A name that begins with a slash leaves the output directory:
    [os.path.join] drops [output_dir] before an absolute second part, so the
    file is written at the root the name gives. *)
Remark absolute_name_leaves_output_dir (output_dir name : str) :
  output_file output_dir ("/"%char :: name)
  = "/"%char :: replace_spaces name ++ py ".csv".
Proof. reflexivity. Qed.

(** ** Login, lines 41-70 *)

Lemma sent_app (log log' : list login_event) :
  sent (log ++ log') = sent log ++ sent log'.
Proof.
  induction log as [|[username password totp| |line] log IH]; cbn [app sent];
    [reflexivity | rewrite IH; reflexivity | exact IH | exact IH].
Qed.

Lemma prompts_app (log log' : list login_event) :
  prompts (log ++ log') = prompts log + prompts log'.
Proof.
  induction log as [|[username password totp| |line] log IH];
    cbn [app prompts Nat.add];
    [reflexivity | exact IH | rewrite IH; reflexivity | exact IH].
Qed.

(** The loop on a script of refused codes followed by an accepted one. *)
Lemma two_factor_accepts (username password : str)
    (failures : list login_error) :
  forall (codes : list str) (code : str) (later : list prompt_answer)
         (rest : list (option login_error)) (log : list login_event),
    length codes = length failures ->
    exists log',
      two_factor username password (map Typed codes ++ Typed code :: later)
        (map Some failures ++ None :: rest) log
      = Some (Returned, later, rest, log') /\
      sent log' = sent log
                  ++ map (fun c => (username, password, Some c))
                       (codes ++ [code]) /\
      prompts log' = prompts log + Datatypes.S (length failures).
Proof.
  induction failures as [|e failures IH]; intros codes code later rest log Hlen.
  - destruct codes as [|c codes]; [|discriminate Hlen].
    cbn [app map two_factor]. eexists. split; [reflexivity|].
    rewrite !sent_app, !prompts_app. cbn [sent prompts length app map].
    rewrite app_nil_r. split; [reflexivity | lia].
  - destruct codes as [|c codes]; [discriminate Hlen|].
    cbn [length] in Hlen. injection Hlen as Hlen.
    cbn [app map two_factor].
    destruct (IH codes code later rest
                ((log ++ [Prompted; LoginSent username password (Some c)])
                 ++ [Printed (py "Invalid 2FA code. Please try again. Error: "
                              ++ str_of_login_error e)]) Hlen)
      as [log' [Hrun [Hsent Hprompts]]].
    exists log'. split; [exact Hrun|].
    rewrite Hsent, Hprompts, !sent_app, !prompts_app.
    cbn [sent prompts length app map]. rewrite app_nil_r, <- app_assoc.
    split; [reflexivity | lia].
Qed.

(** How the loop can end: every answer of the server it has consumed
    before was a refusal. *)
Lemma two_factor_ends (username password : str) (typed : list prompt_answer) :
  forall (answers : list (option login_error)) (log : list login_event)
         (outcome : client_outcome) (typed' : list prompt_answer)
         (answers' : list (option login_error)) (log' : list login_event),
    two_factor username password typed answers log
    = Some (outcome, typed', answers', log') ->
    exists failures,
      prompts log' = prompts log + Datatypes.S (length failures) /\
      ((outcome = Returned /\
        answers = map Some failures ++ None :: answers') \/
       (exists name, outcome = RaisedPrompt name /\
                     answers = map Some failures ++ answers')).
Proof.
  induction typed as [|[code|name] typed IH];
    intros answers log outcome typed' answers' log' Hrun;
    cbn [two_factor] in Hrun; [discriminate Hrun| |].
  - destruct answers as [|[e|] answers]; [discriminate Hrun| |].
    + apply IH in Hrun. destruct Hrun as [failures [Hprompts Hend]].
      exists (e :: failures). split.
      * rewrite Hprompts, !prompts_app. cbn [prompts length]. lia.
      * destruct Hend as [[Houtcome Hanswers] | [name [Houtcome Hanswers]]].
        -- left. split; [exact Houtcome|].
           cbn [map app]. rewrite Hanswers. reflexivity.
        -- right. exists name. split; [exact Houtcome|].
           cbn [map app]. rewrite Hanswers. reflexivity.
    + injection Hrun as <- _ <- <-. exists []. split.
      * rewrite !prompts_app. cbn [prompts length]. lia.
      * left. split; reflexivity.
  - injection Hrun as <- _ <- <-. exists []. split.
    + rewrite prompts_app. cbn [prompts length]. lia.
    + right. exists name. split; reflexivity.
Qed.

(** X23. Once the server has asked for a second factor, [get_client] goes
    on until a login succeeds: when the codes typed are refused [n] times,
    for whatever reason, and the next one is accepted, it returns the
    client after [n + 1] prompts, and it has sent the first login without
    code and one login for each code typed, in the order typed, all with
    the same user name and password. *)
Theorem two_factor_until_accepted (username password message : str)
    (failures : list login_error) (codes : list str) (code : str)
    (later : list prompt_answer) (rest : list (option login_error)) :
  truthy (Some username) = true ->
  truthy (Some password) = true ->
  two_factor_required message = true ->
  length codes = length failures ->
  exists log,
    get_client (Some username) (Some password)
      (map Typed codes ++ Typed code :: later)
      (Some (ProtocolError message) :: map Some failures ++ None :: rest)
    = Some (Returned, later, rest, log) /\
    sent log = (username, password, None)
               :: map (fun c => (username, password, Some c))
                    (codes ++ [code]) /\
    prompts log = Datatypes.S (length failures).
Proof.
  intros Huser Hpass Hrequired Hlen.
  destruct username as [|u0 username]; [discriminate Huser|].
  destruct password as [|p0 password]; [discriminate Hpass|].
  cbn [get_client]. rewrite Hrequired.
  destruct (two_factor_accepts (u0 :: username) (p0 :: password) failures
              codes code later rest
              ([LoginSent (u0 :: username) (p0 :: password) None]
               ++ [Printed (py "Two-factor authentication is required.")])
              Hlen)
    as [log [Hrun [Hsent Hprompts]]].
  rewrite Hrun. exists log. split; [reflexivity|].
  split; [exact Hsent | exact Hprompts].
Qed.

Lemma two_factor_until_accepted_witness :
  let refused :=
    [ProtocolError (py "InvalidToken"); OtherError (py "Connection reset")] in
  two_factor_required (py "AuthFactorTokenRequired: sign in code sent") = true /\
  exists log,
    get_client (Some (py "lab.example")) (Some (py "app-password"))
      (map Typed [py "11111"; py "22222"] ++ Typed (py "33333")
       :: [Typed (py "44444")])
      (Some (ProtocolError (py "AuthFactorTokenRequired: sign in code sent"))
       :: map Some refused ++ None :: [None])
    = Some (Returned, [Typed (py "44444")], [None], log) /\
    sent log = (py "lab.example", py "app-password", None)
               :: map (fun c => (py "lab.example", py "app-password", Some c))
                    ([py "11111"; py "22222"] ++ [py "33333"]) /\
    prompts log = 3.
Proof.
  cbv zeta. split; [reflexivity|].
  apply (two_factor_until_accepted (py "lab.example") (py "app-password")
           (py "AuthFactorTokenRequired: sign in code sent")
           [ProtocolError (py "InvalidToken");
            OtherError (py "Connection reset")]
           [py "11111"; py "22222"] (py "33333") [Typed (py "44444")] [None]);
    reflexivity.
Defined.

(** X24. Once the server has asked for a second factor, no answer of the
    server ends [get_client]: the handler of line 62 catches every exception
    of a login with a code and the loop prompts again. What ends it is the
    return of line 70, after a login that succeeded, or an exception of the
    prompt itself, which is raised outside the [try] of line 58 and leaves
    [get_client]; in both cases every answer of the server before was a
    refusal, and there was one prompt for each and one more. *)
Theorem two_factor_ends_by_login_or_prompt (username password : option str)
    (message : str) (typed typed' : list prompt_answer)
    (answers answers' : list (option login_error))
    (outcome : client_outcome) (log : list login_event) :
  truthy username = true ->
  truthy password = true ->
  two_factor_required message = true ->
  get_client username password typed (Some (ProtocolError message) :: answers)
  = Some (outcome, typed', answers', log) ->
  exists failures,
    prompts log = Datatypes.S (length failures) /\
    ((outcome = Returned /\
      answers = map Some failures ++ None :: answers') \/
     (exists name, outcome = RaisedPrompt name /\
                   answers = map Some failures ++ answers')).
Proof.
  intros Huser Hpass Hrequired Hrun.
  destruct username as [[|u0 username]|]; try discriminate Huser.
  destruct password as [[|p0 password]|]; try discriminate Hpass.
  cbn [get_client] in Hrun. rewrite Hrequired in Hrun.
  apply two_factor_ends in Hrun.
  destruct Hrun as [failures [Hprompts Hend]].
  exists failures. split; [|exact Hend].
  rewrite Hprompts, prompts_app. cbn [prompts]. lia.
Qed.

Lemma two_factor_ends_by_login_or_prompt_witness :
  two_factor_required (py "AuthFactorTokenRequired") = true /\
  get_client (Some (py "lab.example")) (Some (py "app-password"))
    [Typed (py "11111"); PromptRaises (py "EOFError"); Typed (py "33333")]
    [Some (ProtocolError (py "AuthFactorTokenRequired"));
     Some (OtherError (py "Connection reset")); None]
  = Some (RaisedPrompt (py "EOFError"), [Typed (py "33333")], [None],
          [LoginSent (py "lab.example") (py "app-password") None;
           Printed (py "Two-factor authentication is required.");
           Prompted;
           LoginSent (py "lab.example") (py "app-password") (Some (py "11111"));
           Printed (py "Invalid 2FA code. Please try again. Error: Connection reset");
           Prompted]) /\
  exists failures,
    prompts
      [LoginSent (py "lab.example") (py "app-password") None;
       Printed (py "Two-factor authentication is required.");
       Prompted;
       LoginSent (py "lab.example") (py "app-password") (Some (py "11111"));
       Printed (py "Invalid 2FA code. Please try again. Error: Connection reset");
       Prompted]
    = Datatypes.S (length failures) /\
    ((RaisedPrompt (py "EOFError") = Returned /\
      [Some (OtherError (py "Connection reset")); None]
      = map Some failures ++ None :: [None]) \/
     (exists name,
        RaisedPrompt (py "EOFError") = RaisedPrompt name /\
        [Some (OtherError (py "Connection reset")); None]
        = map Some failures ++ [None])).
Proof.
  split; [reflexivity|]. split; [reflexivity|].
  apply (two_factor_ends_by_login_or_prompt (Some (py "lab.example"))
           (Some (py "app-password")) (py "AuthFactorTokenRequired")
           [Typed (py "11111"); PromptRaises (py "EOFError");
            Typed (py "33333")]
           [Typed (py "33333")]
           [Some (OtherError (py "Connection reset")); None] [None]);
    reflexivity.
Defined.
